(** * Sign-language PWA: the frame-to-batch streaming pipeline

    A shallow embedding of the JavaScript sources

    - [poseDetector.js]  (class [PoseDetector]: landmark extraction and the
      frame buffer),
    - [js/apiClient.js]  (class [APIClient]: [translate], [healthCheck]),
    - [js/app.js]        (class [App]: health probe, start/stop, batch
      submission),
    - [config.js]        ([CONFIG]),

    followed by the properties of the pipeline that were checked against it.

    JavaScript numbers are IEEE-754 binary64 values: they are modelled by
    Rocq's primitive floats, whose [*] and [/] are the binary64 operations.
    Asynchronous code is cut at its [await]s: the part of a method that runs
    before the [await] and the part that runs when the awaited promise
    settles are separate functions, and the outcome of the awaited operation
    is an argument of the second one. *)

From Stdlib Require Import ZArith List Bool String Ascii Lia Sorted.
From Stdlib Require Import DecimalString.
From Stdlib Require Import Floats Uint63.
Import ListNotations.

Set Warnings "-register-all".
Local Open Scope Z_scope.

(* ================================================================= *)
(** ** JavaScript numbers and [Math.round] *)

Module Number.

Definition number : Set := float.

(** The integer mantissa of a finite double, with its sign. *)
Definition signed (s : bool) (m : positive) : Z :=
  if s then Z.neg m else Z.pos m.

(** The double that holds the integer [n]; [neg] chooses the sign of a
    zero result.  Used below [2^53] only, where the conversion is exact. *)
Definition of_int (n : Z) (neg : bool) : number :=
  match n with
  | Z0 => if neg then neg_zero else zero
  | Zpos _ => of_uint63 (Uint63.of_Z n)
  | Zneg p => (- of_uint63 (Uint63.of_Z (Zpos p)))%float
  end.

(** [floor (m / 2^k + 1/2)] for [k >= 1]: add half a unit, shift right. *)
Definition round_half_up (m k : Z) : Z :=
  Z.shiftr (m + Z.shiftl 1 (k - 1)) k.

(** ECMAScript [Math.round]: NaN, the infinities and the zeros are
    returned as they are, and so is a value that is already integral
    (exponent [e >= 0]).  Otherwise the value [signed s m * 2^e] is
    rounded to the closest integer, a tie going to the integer closer to
    +infinity; a zero result keeps the sign of the argument. *)
Definition Math_round (v : number) : number :=
  match Prim2SF v with
  | S754_finite s m e =>
      if 0 <=? e then v
      else of_int (round_half_up (signed s m) (- e)) s
  | _ => v
  end.

(** [Math.round(v * 1000) / 1000], the expression applied to every
    coordinate in [extractSkeletalData]. *)
Definition round3 (v : number) : number :=
  (Math_round (v * 1000) / 1000)%float.

End Number.
Import Number.

(* ================================================================= *)
(** ** Completions: normal return or a thrown exception *)

Record JsError : Set := Error { message : string }.

Inductive completion (A : Type) : Type :=
| Normal (a : A)
| Throw (e : JsError).
Arguments Normal {A} a.
Arguments Throw {A} e.

Definition bind {A B} (c : completion A) (k : A -> completion B) : completion B :=
  match c with
  | Normal a => k a
  | Throw e => Throw e
  end.

(** [try { c } catch (error) { h error }] *)
Definition try_catch {A} (c : completion A) (h : JsError -> completion A) : completion A :=
  match c with
  | Normal a => Normal a
  | Throw e => h e
  end.

Declare Scope js_scope.
Delimit Scope js_scope with js.
Notation "x <- c ;; k" := (bind c (fun x => k))
  (at level 61, c at next level, right associativity) : js_scope.

Fixpoint mapM {A B} (f : A -> completion B) (l : list A) : completion (list B) :=
  match l with
  | [] => Normal []
  | a :: l' =>
      (b <- f a ;;
       bs <- mapM f l' ;;
       Normal (b :: bs))%js
  end.

(* ================================================================= *)
(** ** [config.js] *)

Record Config : Set := {
  API_URL : string;
  FRAME_BATCH_SIZE : nat;
  CAMERA_WIDTH : nat;
  CAMERA_HEIGHT : nat
}.

Definition CONFIG : Config := {|
  API_URL := "https://sign-language-api-lqw3.onrender.com/api";
  FRAME_BATCH_SIZE := 30;
  CAMERA_WIDTH := 1280;
  CAMERA_HEIGHT := 720
|}.

(* ================================================================= *)
(** ** [poseDetector.js] *)

Module Landmark.
(** One MediaPipe landmark [{x, y, z}]. *)
Record t : Set := { x : number; y : number; z : number }.
End Landmark.

Module PoseDetector.

(** The array [[x, y, z]] stored for a landmark. *)
Definition Point : Set := (number * number * number)%type.

(** What MediaPipe hands to the three [onResults] handlers.  A field that
    is [undefined] in the JavaScript result is [None];
    [multiHandedness] lists the [label] of each entry. *)
Record PoseResults : Set := { poseLandmarks : option (list Landmark.t) }.
Record HandsResults : Set := {
  multiHandLandmarks : option (list (list Landmark.t));
  multiHandedness : list string
}.
Record FaceResults : Set := { multiFaceLandmarks : option (list (list Landmark.t)) }.

(** The object [skeletalData] built by [extractSkeletalData]. *)
Record SkeletalData : Set := {
  timestamp : Z;
  frame_id : nat;
  pose_landmarks : option (list Point);
  left_hand : option (list Point);
  right_hand : option (list Point);
  face_landmarks : option (list Point)
}.

Definition Batch : Set := list SkeletalData.

(** The fields of a [PoseDetector] that the pipeline reads and writes.
    [onFrameCallback] is [true] once a callback is registered and [false]
    while the field is [null]; the video element and the canvas belong to
    the page and are kept with the [App]. *)
Record t : Set := {
  isInitialized : bool;
  frameBuffer : list SkeletalData;
  onFrameCallback : bool;
  currentHandsData : option HandsResults;
  currentPoseData : option PoseResults;
  currentFaceData : option FaceResults
}.

(** [constructor] *)
Definition new : t := {|
  isInitialized := false;
  frameBuffer := [];
  onFrameCallback := false;
  currentHandsData := None;
  currentPoseData := None;
  currentFaceData := None
|}.

Definition set_isInitialized (b : bool) (d : t) : t :=
  {| isInitialized := b; frameBuffer := frameBuffer d;
     onFrameCallback := onFrameCallback d;
     currentHandsData := currentHandsData d;
     currentPoseData := currentPoseData d;
     currentFaceData := currentFaceData d |}.

Definition set_frameBuffer (buf : list SkeletalData) (d : t) : t :=
  {| isInitialized := isInitialized d; frameBuffer := buf;
     onFrameCallback := onFrameCallback d;
     currentHandsData := currentHandsData d;
     currentPoseData := currentPoseData d;
     currentFaceData := currentFaceData d |}.

Definition set_onFrameCallback (b : bool) (d : t) : t :=
  {| isInitialized := isInitialized d; frameBuffer := frameBuffer d;
     onFrameCallback := b;
     currentHandsData := currentHandsData d;
     currentPoseData := currentPoseData d;
     currentFaceData := currentFaceData d |}.

(** [onHandsResults], [onFaceResults] *)
Definition onHandsResults (results : HandsResults) (d : t) : t :=
  {| isInitialized := isInitialized d; frameBuffer := frameBuffer d;
     onFrameCallback := onFrameCallback d;
     currentHandsData := Some results;
     currentPoseData := currentPoseData d;
     currentFaceData := currentFaceData d |}.

Definition onFaceResults (results : FaceResults) (d : t) : t :=
  {| isInitialized := isInitialized d; frameBuffer := frameBuffer d;
     onFrameCallback := onFrameCallback d;
     currentHandsData := currentHandsData d;
     currentPoseData := currentPoseData d;
     currentFaceData := Some results |}.

Definition set_currentPoseData (results : PoseResults) (d : t) : t :=
  {| isInitialized := isInitialized d; frameBuffer := frameBuffer d;
     onFrameCallback := onFrameCallback d;
     currentHandsData := currentHandsData d;
     currentPoseData := Some results;
     currentFaceData := currentFaceData d |}.

(** [lm => [Math.round(lm.x * 1000) / 1000, ..y.., ..z..]] *)
Definition quantize (lm : Landmark.t) : Point :=
  (round3 (Landmark.x lm), round3 (Landmark.y lm), round3 (Landmark.z lm)).

Definition undefined_property (name : string) : JsError :=
  Error ("Cannot read properties of undefined (reading '" ++ name ++ "')").

(** [multiHandedness[index].label]: a [TypeError] when the entry is
    missing. *)
Definition handedness_label (handedness : list string) (index : nat) : completion string :=
  match nth_error handedness index with
  | Some label => Normal label
  | None => Throw (undefined_property "label")
  end.

(** The body of [multiHandLandmarks.forEach((landmarks, index) => ...)] in
    [extractSkeletalData], threading the two hand fields of
    [skeletalData]: a later hand with the same label overwrites an
    earlier one. *)
Fixpoint forEach_hand (hands : list (list Landmark.t)) (index : nat)
    (handedness : list string)
    (left right : option (list Point))
    : completion (option (list Point) * option (list Point)) :=
  match hands with
  | [] => Normal (left, right)
  | landmarks :: rest =>
      (label <- handedness_label handedness index ;;
       let handData := map quantize landmarks in
       if String.eqb label "Left"
       then forEach_hand rest (S index) handedness (Some handData) right
       else forEach_hand rest (S index) handedness left (Some handData))%js
  end.

Definition keyIndices : list nat := [10; 152; 234; 454; 70; 300]%nat.

(** [faceLandmarks[idx].x]: a [TypeError] when the face has no landmark
    at [idx]. *)
Definition face_point (faceLandmarks : list Landmark.t) (idx : nat) : completion Point :=
  match nth_error faceLandmarks idx with
  | Some lm => Normal (quantize lm)
  | None => Throw (undefined_property "x")
  end.

(** The first part of [extractSkeletalData]: the object [skeletalData]
    as it stands just before [this.frameBuffer.push(skeletalData)].
    [now] is the value of [Date.now()]. *)
Definition compose (now : Z) (d : t) : completion SkeletalData :=
  let pose :=
    match currentPoseData d with
    | Some results =>
        match poseLandmarks results with
        | Some lms => Some (map quantize lms)
        | None => None
        end
    | None => None
    end in
  (hands <-
     match currentHandsData d with
     | Some results =>
         match multiHandLandmarks results with
         | Some hs => forEach_hand hs 0 (multiHandedness results) None None
         | None => Normal (None, None)
         end
     | None => Normal (None, None)
     end ;;
   face <-
     match currentFaceData d with
     | Some results =>
         match multiFaceLandmarks results with
         | Some faces =>
             match nth_error faces 0 with
             | Some faceLandmarks =>
                 (pts <- mapM (face_point faceLandmarks) keyIndices ;;
                  Normal (Some pts))
             | None => Normal None
             end
         | None => Normal None
         end
     | None => Normal None
     end ;;
   Normal {| timestamp := now;
             frame_id := List.length (frameBuffer d);
             pose_landmarks := pose;
             left_hand := fst hands;
             right_hand := snd hands;
             face_landmarks := face |})%js.

(** What a call of the detector does to the outside: it pushes a record
    onto the frame buffer, or it calls [onFrameCallback] with a copy of
    the buffer. *)
Inductive effect : Set :=
| Push (record : SkeletalData)
| Callback (frames : Batch).

(** [extractSkeletalData]: compose the record, push it, and release the
    buffer when it has reached [CONFIG.FRAME_BATCH_SIZE] records.  An
    exception can only come from [compose], before anything is written. *)
Definition extractSkeletalData (cfg : Config) (now : Z) (d : t)
    : completion (t * list effect) :=
  (skeletalData <- compose now d ;;
   let buffer := frameBuffer d ++ [skeletalData] in
   if (FRAME_BATCH_SIZE cfg <=? List.length buffer)%nat
   then Normal (set_frameBuffer [] d,
                Push skeletalData ::
                (if onFrameCallback d then [Callback buffer] else []))
   else Normal (set_frameBuffer buffer d, [Push skeletalData]))%js.

(** [drawHands(handsData)], reduced to what it can throw: it reads
    [multiHandedness[index].label] for every hand it draws. *)
Definition drawHands (handsData : option HandsResults) : completion unit :=
  match handsData with
  | Some results =>
      match multiHandLandmarks results with
      | Some hs =>
          (_ <- mapM (handedness_label (multiHandedness results)) (seq 0 (List.length hs)) ;;
           Normal tt)%js
      | None => Normal tt
      end
  | None => Normal tt
  end.

(** [onPoseResults]: store the result, redraw, extract.  The detector
    keeps the stored result also when drawing or extraction throws. *)
Definition onPoseResults (cfg : Config) (results : PoseResults) (now : Z) (d : t)
    : t * list effect * completion unit :=
  let d1 := set_currentPoseData results d in
  match drawHands (currentHandsData d1) with
  | Throw e => (d1, [], Throw e)
  | Normal _ =>
      match extractSkeletalData cfg now d1 with
      | Throw e => (d1, [], Throw e)
      | Normal (d2, effects) => (d2, effects, Normal tt)
      end
  end.

(** The three notifications MediaPipe delivers. *)
Inductive event : Set :=
| HandsResultsEv (results : HandsResults)
| PoseResultsEv (results : PoseResults) (now : Z)
| FaceResultsEv (results : FaceResults).

Definition handle (cfg : Config) (ev : event) (d : t) : t * list effect :=
  match ev with
  | HandsResultsEv results => (onHandsResults results d, [])
  | FaceResultsEv results => (onFaceResults results d, [])
  | PoseResultsEv results now =>
      let '(d', effects, _) := onPoseResults cfg results now d in (d', effects)
  end.

(** A run of the detector over a sequence of notifications, with the
    effects it has in order. *)
Fixpoint run (cfg : Config) (evs : list event) (d : t) : t * list effect :=
  match evs with
  | [] => (d, [])
  | ev :: rest =>
      let '(d1, effects1) := handle cfg ev d in
      let '(d2, effects2) := run cfg rest d1 in
      (d2, effects1 ++ effects2)
  end.

Fixpoint pushes (effects : list effect) : list SkeletalData :=
  match effects with
  | [] => []
  | Push r :: rest => r :: pushes rest
  | Callback _ :: rest => pushes rest
  end.

Fixpoint callbacks (effects : list effect) : list Batch :=
  match effects with
  | [] => []
  | Push _ :: rest => callbacks rest
  | Callback frames :: rest => frames :: callbacks rest
  end.

(** [stop()] stops the tracks of the video element's stream and touches
    no field of the detector; see [App.stop] for the stream. *)
Definition stop (d : t) : t := d.

End PoseDetector.

(* ================================================================= *)
(** ** Values parsed from a JSON response body *)

Local Open Scope string_scope.

Module Json.

Inductive json : Set :=
| JNull
| JBool (b : bool)
| JNum (n : number)
| JStr (s : string)
| JArr (items : list json)
| JObj (props : list (string * json)).

(** The own property [name] of a parsed object; [None] is [undefined].
    A parsed object has each key once. *)
Fixpoint lookup (name : string) (props : list (string * json)) : option json :=
  match props with
  | [] => None
  | (k, v) :: rest => if String.eqb k name then Some v else lookup name rest
  end.

(** [v.name] for the names the sources read ([status], [translation],
    [words]), none of which is a property of a prototype: reading a
    property of [null] throws, an object answers with its own property,
    every other value with [undefined]. *)
Definition get (v : json) (name : string) : completion (option json) :=
  match v with
  | JNull => Throw (Error ("Cannot read properties of null (reading '" ++ name ++ "')"))
  | JObj props => Normal (lookup name props)
  | _ => Normal None
  end.

(** ToBoolean *)
Definition truthy (v : json) : bool :=
  match v with
  | JNull => false
  | JBool b => b
  | JNum n => negb (PrimFloat.is_zero n || PrimFloat.is_nan n)
  | JStr s => negb (String.eqb s "")
  | JArr _ | JObj _ => true
  end.

(** [v === s] for a string literal [s] *)
Definition strict_eq_string (v : option json) (s : string) : bool :=
  match v with
  | Some (JStr t) => String.eqb t s
  | _ => false
  end.

Section Join.
Variable element : json -> string.

(** [Array.prototype.join] over the strings of the elements *)
Fixpoint join_with (sep : string) (items : list json) : string :=
  match items with
  | [] => ""
  | [a] => element a
  | a :: rest => element a ++ sep ++ join_with sep rest
  end.
End Join.

Section ToString.
(** [Number::toString], the shortest decimal that reads back as the
    same double, is not modelled: it is a parameter. *)
Variable Number_toString : number -> string.

Fixpoint ToString (v : json) : string :=
  match v with
  | JNull => "null"
  | JBool true => "true"
  | JBool false => "false"
  | JNum n => Number_toString n
  | JStr s => s
  | JArr items =>
      join_with (fun a => match a with JNull => "" | _ => ToString a end) "," items
  | JObj _ => "[object Object]"
  end.

(** [items.join(sep)]: [null] elements give the empty string. *)
Definition join (sep : string) (items : list json) : string :=
  join_with (fun a => match a with JNull => "" | _ => ToString a end) sep items.

(** The string a DOM [textContent] holds after [el.textContent = v]:
    [null] and [undefined] clear it. *)
Definition textContent_of (v : option json) : string :=
  match v with
  | None | Some JNull => ""
  | Some w => ToString w
  end.
End ToString.

End Json.
Import Json.

(* ================================================================= *)
(** ** [js/apiClient.js] *)

Module APIClient.

(** How a [fetch] followed by [response.json()] ends: the request is
    rejected (network failure), or a response with an HTTP status arrives
    and reading its body as JSON gives a value or throws. *)
Inductive FetchOutcome : Set :=
| Rejected (e : JsError)
| Response (status : nat) (body : completion json).

(** [response.ok] *)
Definition ok (status : nat) : bool :=
  ((200 <=? status) && (status <=? 299))%nat.

(** The request [translate(frames)] sends. *)
Record Request : Set := {
  url : string;
  method : string;
  frames : PoseDetector.Batch;
  timestamp : Z
}.

Definition translate_request (cfg : Config) (frames : PoseDetector.Batch) (now : Z) : Request :=
  {| url := API_URL cfg ++ "/translate";
     method := "POST";
     frames := frames;
     timestamp := now |}.

Definition string_of_status (status : nat) : string :=
  NilZero.string_of_uint (Nat.to_uint status).

(** [translate], from the point where the request has been sent: the
    value it resolves to or the error it rejects with. *)
Definition translate (o : FetchOutcome) : completion json :=
  try_catch
    match o with
    | Rejected e => Throw e
    | Response status body =>
        if negb (ok status)
        then Throw (Error ("API error: " ++ string_of_status status))
        else body
    end
    (fun error => Throw error).

(** [healthCheck], from the point where the request has been sent. *)
Definition healthCheck (o : FetchOutcome) : completion json :=
  try_catch
    match o with
    | Rejected e => Throw e
    | Response _ body => body
    end
    (fun _ => Normal JNull).

End APIClient.

(* ================================================================= *)
(** ** [js/app.js] *)

Module App.

(** The camera stream given to the video element; [live] turns [false]
    when its tracks are stopped. *)
Record MediaStream : Set := { live : bool }.

(** The page elements the app writes to. *)
Record Elements : Set := {
  status_textContent : string;
  status_className : string;
  translation_textContent : string;
  words_textContent : string;
  startBtn_display : string;
  stopBtn_display : string;
  video_srcObject : option MediaStream;
  canvas_width : nat;
  canvas_height : nat
}.

Record t : Set := {
  poseDetector : option PoseDetector.t;
  isRunning : bool;
  elements : Elements
}.

Definition set_status (text className : string) (el : Elements) : Elements :=
  {| status_textContent := text;
     status_className := className;
     translation_textContent := translation_textContent el;
     words_textContent := words_textContent el;
     startBtn_display := startBtn_display el;
     stopBtn_display := stopBtn_display el;
     video_srcObject := video_srcObject el;
     canvas_width := canvas_width el;
     canvas_height := canvas_height el |}.

Definition set_translation (text : string) (el : Elements) : Elements :=
  {| status_textContent := status_textContent el;
     status_className := status_className el;
     translation_textContent := text;
     words_textContent := words_textContent el;
     startBtn_display := startBtn_display el;
     stopBtn_display := stopBtn_display el;
     video_srcObject := video_srcObject el;
     canvas_width := canvas_width el;
     canvas_height := canvas_height el |}.

Definition set_words (text : string) (el : Elements) : Elements :=
  {| status_textContent := status_textContent el;
     status_className := status_className el;
     translation_textContent := translation_textContent el;
     words_textContent := text;
     startBtn_display := startBtn_display el;
     stopBtn_display := stopBtn_display el;
     video_srcObject := video_srcObject el;
     canvas_width := canvas_width el;
     canvas_height := canvas_height el |}.

Definition set_buttons (startBtn stopBtn : string) (el : Elements) : Elements :=
  {| status_textContent := status_textContent el;
     status_className := status_className el;
     translation_textContent := translation_textContent el;
     words_textContent := words_textContent el;
     startBtn_display := startBtn;
     stopBtn_display := stopBtn;
     video_srcObject := video_srcObject el;
     canvas_width := canvas_width el;
     canvas_height := canvas_height el |}.

Definition set_srcObject (stream : option MediaStream) (el : Elements) : Elements :=
  {| status_textContent := status_textContent el;
     status_className := status_className el;
     translation_textContent := translation_textContent el;
     words_textContent := words_textContent el;
     startBtn_display := startBtn_display el;
     stopBtn_display := stopBtn_display el;
     video_srcObject := stream;
     canvas_width := canvas_width el;
     canvas_height := canvas_height el |}.

Definition set_canvas (width height : nat) (el : Elements) : Elements :=
  {| status_textContent := status_textContent el;
     status_className := status_className el;
     translation_textContent := translation_textContent el;
     words_textContent := words_textContent el;
     startBtn_display := startBtn_display el;
     stopBtn_display := stopBtn_display el;
     video_srcObject := video_srcObject el;
     canvas_width := width;
     canvas_height := height |}.

Definition with_elements (f : Elements -> Elements) (a : t) : t :=
  {| poseDetector := poseDetector a;
     isRunning := isRunning a;
     elements := f (elements a) |}.

Definition set_isRunning (b : bool) (a : t) : t :=
  {| poseDetector := poseDetector a; isRunning := b; elements := elements a |}.

Definition set_poseDetector (d : option PoseDetector.t) (a : t) : t :=
  {| poseDetector := d; isRunning := isRunning a; elements := elements a |}.

(** [updateStatus(message, className = '')] *)
Definition updateStatus (message className : string) (a : t) : t :=
  with_elements (set_status message ("status " ++ className)) a.

(** [constructor], on the elements of the loaded page: the fields are
    initialised and [checkAPIHealth()] runs up to its [await]. *)
Definition new (page : Elements) : t :=
  updateStatus "Checking API connection..." ""
    {| poseDetector := None; isRunning := false; elements := page |}.

(** [checkAPIHealth], resumed with the outcome of the request:
    [health && health.status === 'ok']. *)
Definition healthy (health : json) : bool :=
  if truthy health
  then match get health "status" with
       | Normal v => strict_eq_string v "ok"
       | Throw _ => false
       end
  else false.

Definition checkAPIHealth (o : APIClient.FetchOutcome) (a : t) : t :=
  match APIClient.healthCheck o with
  | Normal health =>
      if healthy health
      then updateStatus "Ready to start" "" a
      else updateStatus "API connection failed. Check backend." "" a
  | Throw _ => a
  end.

(** [start()] up to [await getUserMedia]. *)
Definition start (a : t) : t :=
  updateStatus "Requesting camera permission..." "" a.

(** The [catch] block of [start]. *)
Definition start_catch (error : JsError) (a : t) : t :=
  updateStatus ("Error: " ++ message error) "" a.

(** [start()] resumed when [getUserMedia] settles, up to the [await] on
    the video metadata. *)
Definition start_camera (r : completion MediaStream) (a : t) : t :=
  match r with
  | Throw error => start_catch error a
  | Normal stream =>
      let a1 := updateStatus "Initializing pose detection..." "" a in
      let a2 := set_poseDetector (Some PoseDetector.new) a1 in
      with_elements (set_srcObject (Some stream)) a2
  end.

(** [start()] resumed when the video metadata has loaded, to its end.
    [init] is how the body of [initialize()] ends: it throws when a
    MediaPipe constructor does, otherwise it sets [isInitialized]. *)
Definition start_metadata (videoWidth videoHeight : nat) (init : completion unit) (a : t) : t :=
  let a1 := with_elements (set_canvas videoWidth videoHeight) a in
  match poseDetector a1 with
  | None => start_catch (PoseDetector.undefined_property "initialize") a1
  | Some d =>
      match init with
      | Throw error => start_catch error a1
      | Normal _ =>
          let d1 := PoseDetector.set_isInitialized true d in
          let d2 := PoseDetector.set_onFrameCallback true d1 in
          let a2 := set_poseDetector (Some d2) a1 in
          let a3 := set_isRunning true a2 in
          let a4 := with_elements (set_buttons "none" "block") a3 in
          updateStatus "Active - Start signing!" "active" a4
      end
  end.

(** [onFrameBatch(frames)] up to [await this.apiClient.translate(frames)]:
    the requests it sends, none when the app is not running. *)
Definition onFrameBatch (cfg : Config) (frames : PoseDetector.Batch) (now : Z) (a : t)
    : t * list APIClient.Request :=
  if negb (isRunning a) then (a, [])
  else (updateStatus "Processing..." "processing" a,
        [APIClient.translate_request cfg frames now]).

Section Resume.
Variable Number_toString : number -> string.

(** The [try] block of [onFrameBatch] after the [await], on the value
    [translate] resolved to.  What was written before an exception
    stays written. *)
Definition show_result (result : json) (a : t) : t * completion unit :=
  match get result "translation" with
  | Throw e => (a, Throw e)
  | Normal translation =>
      let a1 := with_elements
                  (set_translation (textContent_of Number_toString translation)) a in
      match get result "words" with
      | Throw e => (a1, Throw e)
      | Normal (Some (JArr items)) =>
          let a2 := with_elements
                      (set_words ("Recognized: " ++ join Number_toString ", " items)) a1 in
          (updateStatus "Active - Start signing!" "active" a2, Normal tt)
      | Normal _ => (a1, Throw (Error "result.words.join is not a function"))
      end
  end.

(** [onFrameBatch] resumed when the request settles. *)
Definition onFrameBatch_resume (o : APIClient.FetchOutcome) (a : t) : t :=
  match APIClient.translate o with
  | Throw _ => updateStatus "Translation failed. Retrying..." "" a
  | Normal result =>
      match show_result result a with
      | (a', Normal _) => a'
      | (a', Throw _) => updateStatus "Translation failed. Retrying..." "" a'
      end
  end.
End Resume.

(** [this.poseDetector.stop()] on the page: the tracks of the stream held
    by the video element are stopped. *)
Definition stop_tracks (el : Elements) : Elements :=
  match video_srcObject el with
  | Some _ => set_srcObject (Some {| live := false |}) el
  | None => el
  end.

(** [stop()] *)
Definition stop (a : t) : t :=
  let a1 := set_isRunning false a in
  let a2 :=
    match poseDetector a1 with
    | Some d =>
        with_elements stop_tracks (set_poseDetector (Some (PoseDetector.stop d)) a1)
    | None => a1
    end in
  let a3 := with_elements (set_buttons "block" "none") a2 in
  let a4 := updateStatus "Stopped" "" a3 in
  let a5 := with_elements (set_translation "Start signing...") a4 in
  with_elements (set_words "") a5.

End App.

(* ================================================================= *)
(** ** The app in its environment

    The browser, MediaPipe and the network decide when each continuation
    runs.  A [World] is the app together with the detectors it has let go
    of and the translate requests that have been sent and not yet
    answered; an [event] is one turn of the event loop.  The model does not
    constrain the order in which the environment delivers its events,
    except that only a request that is in flight can be answered and only
    an initialised detector is notified.

    [start()] assigns a new [PoseDetector] to [this.poseDetector] each time
    it runs.  The detector that was there before is not halted by that, nor
    by [stop()], which only stops the camera tracks: its
    [requestAnimationFrame] loop goes on, it keeps its frame buffer, and
    its [onFrameCallback] still calls [onFrameBatch] of the same app.  Such
    detectors are kept in [replaced], and [Replaced i] is a notification of
    the [i]-th of them. *)

Module World.

Record t : Set := {
  app : App.t;
  replaced : list PoseDetector.t;
  in_flight : list APIClient.Request;
  posted : list APIClient.Request
}.

Inductive event : Set :=
| HealthSettled (o : APIClient.FetchOutcome)
| StartClick
| CameraSettled (r : completion App.MediaStream)
| MetadataLoaded (videoWidth videoHeight : nat) (init : completion unit)
| StopClick
| Detector (ev : PoseDetector.event)
| Replaced (i : nat) (ev : PoseDetector.event)
| TranslateSettled (i : nat) (o : APIClient.FetchOutcome).

Definition init (page : App.Elements) : t :=
  {| app := App.new page; replaced := []; in_flight := []; posted := [] |}.

Definition with_app (f : App.t -> App.t) (w : t) : t :=
  {| app := f (app w); replaced := replaced w;
     in_flight := in_flight w; posted := posted w |}.

Definition set_replaced (ds : list PoseDetector.t) (w : t) : t :=
  {| app := app w; replaced := ds;
     in_flight := in_flight w; posted := posted w |}.

(** The requests [rs] leave the app. *)
Definition send (rs : list APIClient.Request) (w : t) : t :=
  {| app := app w;
     replaced := replaced w;
     in_flight := (in_flight w ++ rs)%list;
     posted := (posted w ++ rs)%list |}.

(** The list without its [i]-th element. *)
Fixpoint remove_nth {A} (i : nat) (l : list A) : list A :=
  match l, i with
  | [], _ => []
  | _ :: rest, O => rest
  | a :: rest, S j => a :: remove_nth j rest
  end.

(** The list with [a] at the place of its [i]-th element. *)
Fixpoint update_nth {A} (i : nat) (a : A) (l : list A) : list A :=
  match l, i with
  | [], _ => []
  | _ :: rest, O => a :: rest
  | b :: rest, S j => b :: update_nth j a rest
  end.

(** [Date.now()] during the turn of a detector notification. *)
Definition clock (ev : PoseDetector.event) : Z :=
  match ev with
  | PoseDetector.PoseResultsEv _ now => now
  | _ => 0
  end.

(** The registered callback [(frames) => this.onFrameBatch(frames)],
    called for each batch a detector releases. *)
Fixpoint deliver (cfg : Config) (batches : list PoseDetector.Batch) (now : Z) (w : t) : t :=
  match batches with
  | [] => w
  | frames :: rest =>
      let '(a, rs) := App.onFrameBatch cfg frames now (app w) in
      deliver cfg rest now
        (send rs {| app := a; replaced := replaced w;
                    in_flight := in_flight w; posted := posted w |})
  end.

(** [this.poseDetector = new PoseDetector(...)] in [start()], reached when
    [getUserMedia] has resolved: the detector the app held until then
    joins the replaced ones. *)
Definition retire (r : completion App.MediaStream) (w : t) : t :=
  match r, App.poseDetector (app w) with
  | Normal _, Some d => set_replaced (replaced w ++ [d])%list w
  | _, _ => w
  end.

Section Step.
Variable Number_toString : number -> string.
Variable cfg : Config.

Definition step (ev : event) (w : t) : option t :=
  match ev with
  | HealthSettled o => Some (with_app (App.checkAPIHealth o) w)
  | StartClick => Some (with_app App.start w)
  | CameraSettled r => Some (with_app (App.start_camera r) (retire r w))
  | MetadataLoaded vw vh init => Some (with_app (App.start_metadata vw vh init) w)
  | StopClick => Some (with_app App.stop w)
  | Detector ev =>
      match App.poseDetector (app w) with
      | Some d =>
          if PoseDetector.isInitialized d then
            let '(d', effects) := PoseDetector.handle cfg ev d in
            let w1 := with_app (App.set_poseDetector (Some d')) w in
            Some (deliver cfg (PoseDetector.callbacks effects) (clock ev) w1)
          else None
      | None => None
      end
  | Replaced i ev =>
      match nth_error (replaced w) i with
      | Some d =>
          if PoseDetector.isInitialized d then
            let '(d', effects) := PoseDetector.handle cfg ev d in
            let w1 := set_replaced (update_nth i d' (replaced w)) w in
            Some (deliver cfg (PoseDetector.callbacks effects) (clock ev) w1)
          else None
      | None => None
      end
  | TranslateSettled i o =>
      match nth_error (in_flight w) i with
      | Some _ =>
          Some {| app := App.onFrameBatch_resume Number_toString o (app w);
                  replaced := replaced w;
                  in_flight := remove_nth i (in_flight w);
                  posted := posted w |}
      | None => None
      end
  end.

Fixpoint run (evs : list event) (w : t) : option t :=
  match evs with
  | [] => Some w
  | ev :: rest =>
      match step ev w with
      | Some w' => run rest w'
      | None => None
      end
  end.
End Step.

End World.

(* ================================================================= *)
(** ** The skeleton overlay of [poseDetector.js]

    The canvas is modelled by the calls made on it: [clearRect] of the 2D
    context and the MediaPipe drawing utilities [drawConnectors] and
    [drawLandmarks], with the colour and the width or radius they are
    given. *)

Module Overlay.

Inductive connections : Set :=
| HAND_CONNECTIONS
| POSE_CONNECTIONS.

Inductive draw_call : Set :=
| clearRect (width height : nat)
| drawConnectors (landmarks : list Landmark.t) (c : connections)
                 (color : string) (lineWidth : nat)
| drawLandmarks (landmarks : list Landmark.t) (color : string) (radius : nat).

(** [handedness === 'Left' ? '#FF0000' : '#0000FF'] *)
Definition hand_color (label : string) : string :=
  if String.eqb label "Left" then "#FF0000" else "#0000FF".

(** The body of [multiHandLandmarks.forEach((landmarks, index) => ...)] in
    [drawHands]: the calls made so far, and how the loop ends. *)
Fixpoint forEach_hand (hands : list (list Landmark.t)) (index : nat)
    (handedness : list string) : list draw_call * completion unit :=
  match hands with
  | [] => ([], Normal tt)
  | landmarks :: rest =>
      match PoseDetector.handedness_label handedness index with
      | Throw e => ([], Throw e)
      | Normal label =>
          let color := hand_color label in
          let '(calls, c) := forEach_hand rest (S index) handedness in
          (drawConnectors landmarks HAND_CONNECTIONS color 2
             :: drawLandmarks landmarks color 3 :: calls, c)
      end
  end.

(** [drawHands(handsData)] *)
Definition drawHands (handsData : option PoseDetector.HandsResults)
    : list draw_call * completion unit :=
  match handsData with
  | Some results =>
      match PoseDetector.multiHandLandmarks results with
      | Some hs => forEach_hand hs 0 (PoseDetector.multiHandedness results)
      | None => ([], Normal tt)
      end
  | None => ([], Normal tt)
  end.

(** [drawPose(results)] *)
Definition drawPose (results : PoseDetector.PoseResults) : list draw_call :=
  match PoseDetector.poseLandmarks results with
  | Some lms =>
      [drawConnectors lms POSE_CONNECTIONS "#00FF00" 2;
       drawLandmarks lms "#00FF00" 3]
  | None => []
  end.

Definition keyPoints : list nat := [10; 152; 234; 454; 70; 300]%nat.

(** [keyPoints.forEach(idx => { if (landmarks[idx]) drawLandmarks(...) })] *)
Definition drawFace_points (landmarks : list Landmark.t) : list draw_call :=
  flat_map
    (fun idx =>
       match nth_error landmarks idx with
       | Some lm => [drawLandmarks [lm] "#FFFF00" 2]
       | None => []
       end)
    keyPoints.

(** [drawFace(faceData)]: every face of the result is drawn. *)
Definition drawFace (faceData : option PoseDetector.FaceResults) : list draw_call :=
  match faceData with
  | Some results =>
      match PoseDetector.multiFaceLandmarks results with
      | Some faces => flat_map drawFace_points faces
      | None => []
      end
  | None => []
  end.

(** [clearCanvas()] *)
Definition clearCanvas (width height : nat) : list draw_call :=
  [clearRect width height].

(** The drawing done by [onPoseResults(results)] on a canvas of the given
    size, for a detector that has already stored [results]: clear, pose,
    hands, face.  An exception in [drawHands] ends it. *)
Definition render (width height : nat) (results : PoseDetector.PoseResults)
    (d : PoseDetector.t) : list draw_call * completion unit :=
  let '(hand_calls, c) := drawHands (PoseDetector.currentHandsData d) in
  match c with
  | Throw e => ((clearRect width height :: drawPose results ++ hand_calls)%list, Throw e)
  | Normal _ =>
      ((clearRect width height :: drawPose results ++ hand_calls
          ++ drawFace (PoseDetector.currentFaceData d))%list, Normal tt)
  end.

End Overlay.

(* ================================================================= *)
(** ** [app.js] at the root of the repository

    The root copy of the app differs from [js/app.js] in [start()] only:
    it does not ask for the camera itself and does not wait for the video
    metadata.  Its two [await]s are on [initialize()] and [startCamera()],
    whose bodies run to their end when they are called, so the method is
    one turn. *)

Module RootApp.

(** [start()]; [init] is how the body of [initialize()] ends. *)
Definition start (init : completion unit) (a : App.t) : App.t :=
  let a1 := App.updateStatus "Initializing camera and pose detection..." "" a in
  match init with
  | Throw error =>
      App.start_catch error (App.set_poseDetector (Some PoseDetector.new) a1)
  | Normal _ =>
      let d1 := PoseDetector.set_isInitialized true PoseDetector.new in
      let d2 := PoseDetector.set_onFrameCallback true d1 in
      let a2 := App.set_poseDetector (Some d2) a1 in
      let a3 := App.set_isRunning true a2 in
      let a4 := App.with_elements (App.set_buttons "none" "block") a3 in
      App.updateStatus "Active - Start signing!" "active" a4
  end.

End RootApp.

(* ================================================================= *)
(** ** Definitions used to state the properties *)

Local Close Scope string_scope.
Local Open Scope list_scope.

(** [n - 1/2 <= signed s m * 2^e < n + 1/2] for [e < 0], cleared of
    denominators: [n] is the integer closest to the double [(s, m, e)], the
    upper one of the two when the double lies half-way between them. *)
Definition nearest_ties_up (s : bool) (m : positive) (e : Z) (n : Z) : Prop :=
  (2 * n - 1) * 2 ^ (- e) <= 2 * signed s m < (2 * n + 1) * 2 ^ (- e).

(** [r] is the stored form of the coordinate [v]: the scaled double
    [v * 1000] is brought to an integer as [Math.round] does and divided by
    1000 again. *)
Definition stored_as (v r : number) : Prop :=
  match Prim2SF (v * 1000) with
  | S754_finite s m e =>
      if 0 <=? e then r = (v * 1000 / 1000)%float
      else exists n, nearest_ties_up s m e n /\ r = (of_int n s / 1000)%float
  | _ => r = (v * 1000 / 1000)%float
  end.

(** The stored point [p] holds the three coordinates of the landmark
    [lm] in their stored form. *)
Definition rounds_to (lm : Landmark.t) (p : PoseDetector.Point) : Prop :=
  stored_as (Landmark.x lm) (fst (fst p))
  /\ stored_as (Landmark.y lm) (snd (fst p))
  /\ stored_as (Landmark.z lm) (snd p).

(** The landmark lists a record is composed from: the latest pose
    landmarks, the landmarks of one of the latest hands, and the landmarks
    of the first face at the six key indices. *)
Definition detected (d : PoseDetector.t) (lms : list Landmark.t) : Prop :=
  (exists results,
      PoseDetector.currentPoseData d = Some results
      /\ PoseDetector.poseLandmarks results = Some lms)
  \/ (exists results hands,
         PoseDetector.currentHandsData d = Some results
         /\ PoseDetector.multiHandLandmarks results = Some hands
         /\ In lms hands)
  \/ (exists results faces face,
         PoseDetector.currentFaceData d = Some results
         /\ PoseDetector.multiFaceLandmarks results = Some faces
         /\ nth_error faces 0 = Some face
         /\ Forall2 (fun idx lm => nth_error face idx = Some lm)
                    PoseDetector.keyIndices lms).

(** A hand field is the quantized landmark list of one of the hands. *)
Definition from_hands (all : list (list Landmark.t))
    (field : option (list PoseDetector.Point)) : Prop :=
  forall pts, field = Some pts ->
  exists lms, In lms all /\ pts = map PoseDetector.quantize lms.

(** The four landmark fields of a record. *)
Definition landmark_fields (r : PoseDetector.SkeletalData)
    : list (option (list PoseDetector.Point)) :=
  [PoseDetector.pose_landmarks r; PoseDetector.left_hand r;
   PoseDetector.right_hand r; PoseDetector.face_landmarks r].

(** Rounding half away from zero, as the specification words it:
    [sign m * floor (|m| / 2^k + 1/2)]. *)
Definition round_half_away (m k : Z) : Z :=
  Z.sgn m * Z.shiftr (Z.abs m + Z.shiftl 1 (k - 1)) k.

(** The coordinate [v] rounded half away from zero to three decimals,
    taken on the exact product [1000 * v]. *)
Definition round3_half_away (v : number) : number :=
  match Prim2SF v with
  | S754_finite s m e =>
      if 0 <=? e then v
      else (of_int (round_half_away (1000 * signed s m) (- e)) s / 1000)%float
  | _ => v
  end.

(** The stored form of the integer [n] of thousandths. *)
Definition thousandths (n : Z) (neg : bool) : number :=
  (of_int n neg / 1000)%float.

(** A mantissa [shr_m r] obtained by shifting the mantissa [P] right by [k]
    bits, as the binary64 rounding of the library does it: it does not
    exceed [P / 2^k], and it is strictly below once the round bit or the
    sticky bit of the record is set. *)
Definition below (P k : Z) (r : shr_record) : Prop :=
  0 <= shr_m r
  /\ shr_m r * 2 ^ k <= P
  /\ (shr_r r || shr_s r = true -> shr_m r * 2 ^ k < P).

(** A complete binary tree over the [2^k] integers from [lo] on, used to
    evaluate a function on a whole interval at once. *)
Inductive span_tree (A : Type) : Type :=
| Leaf (a : A)
| Node (l r : span_tree A).
Arguments Leaf {A} a.
Arguments Node {A} l r.

Fixpoint span {A} (f : Z -> A) (k : nat) (lo : Z) : span_tree A :=
  match k with
  | O => Leaf (f lo)
  | S k' => Node (span f k' lo) (span f k' (lo + 2 ^ Z.of_nat k'))
  end.

(** Frame ids that count the positions of a list from 0. *)
Definition numbered (l : list PoseDetector.SkeletalData) : Prop :=
  forall i r, nth_error l i = Some r -> PoseDetector.frame_id r = i.

(** A detector that has just received one pose landmark. *)
Definition detector_with_pose (lm : Landmark.t) : PoseDetector.t :=
  PoseDetector.set_currentPoseData
    {| PoseDetector.poseLandmarks := Some [lm] |}
    (PoseDetector.set_onFrameCallback true PoseDetector.new).

(** A landmark whose [x] scales to exactly [-62.5]. *)
Definition minus_sixteenth : Landmark.t :=
  {| Landmark.x := (-0.0625)%float; Landmark.y := 0.5%float; Landmark.z := 0%float |}.

(** [CONFIG] with another batch size. *)
Definition config_of_size (B : nat) : Config :=
  {| API_URL := API_URL CONFIG; FRAME_BATCH_SIZE := B;
     CAMERA_WIDTH := CAMERA_WIDTH CONFIG; CAMERA_HEIGHT := CAMERA_HEIGHT CONFIG |}.

(** A pose-only frame, delivered at time [now]. *)
Definition pose_frame (now : Z) : PoseDetector.event :=
  PoseDetector.PoseResultsEv
    {| PoseDetector.poseLandmarks := Some [minus_sixteenth] |} now.

(** The record extracted from the frame [minus_sixteenth] at time [now]
    when the buffer holds [i] records. *)
Definition record_at (now : Z) (i : nat) : PoseDetector.SkeletalData :=
  {| PoseDetector.timestamp := now;
     PoseDetector.frame_id := i;
     PoseDetector.pose_landmarks := Some [((-62 / 1000)%float, 0.5%float, 0%float)];
     PoseDetector.left_hand := None;
     PoseDetector.right_hand := None;
     PoseDetector.face_landmarks := None |}.

(** A parsed body that is an object whose [status] is the string [ok]. *)
Definition status_ok_body (body : json) : Prop :=
  exists props, body = JObj props /\ lookup "status" props = Some (JStr "ok").

(** The elements of the page as it is loaded. *)
Definition page : App.Elements :=
  {| App.status_textContent := "";
     App.status_className := "status";
     App.translation_textContent := "Start signing...";
     App.words_textContent := "";
     App.startBtn_display := "block";
     App.stopBtn_display := "none";
     App.video_srcObject := None;
     App.canvas_width := 0;
     App.canvas_height := 0 |}.

(** The stream [getUserMedia] resolves to. *)
Definition camera : App.MediaStream := {| App.live := true |}.

(** The user presses Start, grants the camera, the video metadata loads
    and MediaPipe initialises. *)
Definition start_events : list World.event :=
  [World.StartClick;
   World.CameraSettled (Normal camera);
   World.MetadataLoaded 640 480 (Normal tt)].

(** [n] pose notifications, at the times [1 .. n]. *)
Definition pose_frames (n : nat) : list World.event :=
  map (fun i => World.Detector (pose_frame (Z.of_nat i))) (seq 1 n).

(** [n] pose notifications of the held detector, at the times
    [t + 1 .. t + n]. *)
Definition pose_frames_from (t n : nat) : list World.event :=
  map (fun k => World.Detector (pose_frame (Z.of_nat k))) (seq (S t) n).

(** [n] pose notifications of the [i]-th replaced detector, at the times
    [t + 1 .. t + n]. *)
Definition replaced_frames (i t n : nat) : list World.event :=
  map (fun k => World.Replaced i (pose_frame (Z.of_nat k))) (seq (S t) n).

(** The records of the [n] pose frames at the times [t + 1 .. t + n],
    numbered from 0. *)
Definition batch_from (t n : nat) : PoseDetector.Batch :=
  map (fun i => record_at (Z.of_nat (t + S i)) i) (seq 0 n).

(** The app after a start and 30 pose frames: the first batch has been
    sent and is not answered yet. *)
Definition world_with_batch_in_flight (Number_toString : number -> string) : World.t :=
  match World.run Number_toString CONFIG
          (start_events ++ pose_frames 30) (World.init page) with
  | Some w => w
  | None => World.init page
  end.

(** No number is turned into text in the scenarios below. *)
Definition number_text (n : number) : string := "".

(** The body [{"status": "down"}]. *)
Definition down_body : json := JObj [("status"%string, JStr "down")].

Definition failed_text : string := "API connection failed. Check backend.".

(** The batches released in the turn [ev]: those the notified detector,
    held or replaced, hands to its callback in that turn. *)
Definition released (cfg : Config) (ev : World.event) (w : World.t)
    : list PoseDetector.Batch :=
  match ev with
  | World.Detector dev =>
      match App.poseDetector (World.app w) with
      | Some d => PoseDetector.callbacks (snd (PoseDetector.handle cfg dev d))
      | None => []
      end
  | World.Replaced i dev =>
      match nth_error (World.replaced w) i with
      | Some d => PoseDetector.callbacks (snd (PoseDetector.handle cfg dev d))
      | None => []
      end
  | _ => []
  end.

(** [Date.now()] in the turn [ev]. *)
Definition turn_clock (ev : World.event) : Z :=
  match ev with
  | World.Detector dev | World.Replaced _ dev => World.clock dev
  | _ => 0
  end.

(** The first submission of the batches released in the turn [ev]: one
    request for each of them if the app is running when the turn begins,
    none otherwise. *)
Definition first_submissions (cfg : Config) (ev : World.event) (w : World.t)
    : list APIClient.Request :=
  if App.isRunning (World.app w)
  then map (fun frames => APIClient.translate_request cfg frames (turn_clock ev))
           (released cfg ev w)
  else [].

(** The first submissions of all the turns of a run, in order. *)
Fixpoint submissions (Number_toString : number -> string) (cfg : Config)
    (evs : list World.event) (w : World.t) : list APIClient.Request :=
  match evs with
  | [] => []
  | ev :: rest =>
      first_submissions cfg ev w ++
      match World.step Number_toString cfg ev w with
      | Some w' => submissions Number_toString cfg rest w'
      | None => []
      end
  end.

(** A failed submission: the request is rejected at the network level or
    the response is not 2xx. *)
Definition submission_failure (o : APIClient.FetchOutcome) : Prop :=
  match o with
  | APIClient.Rejected _ => True
  | APIClient.Response status _ => APIClient.ok status = false
  end.

Definition retry_text : string := "Translation failed. Retrying...".

(** The body [{"translation": "hello", "words": ["hello"]}]. *)
Definition hello_body : json :=
  JObj [("translation"%string, JStr "hello"); ("words"%string, JArr [JStr "hello"])].

(** Every detected hand has an entry in [multiHandedness]. *)
Definition hands_labelled (handsData : option PoseDetector.HandsResults) : bool :=
  match handsData with
  | Some results =>
      match PoseDetector.multiHandLandmarks results with
      | Some hs => (List.length hs <=? List.length (PoseDetector.multiHandedness results))%nat
      | None => true
      end
  | None => true
  end.

(** The first detected face, if there is one, has a landmark at each of
    the six key indices, the largest of which is 454. *)
Definition face_complete (faceData : option PoseDetector.FaceResults) : bool :=
  match faceData with
  | Some results =>
      match PoseDetector.multiFaceLandmarks results with
      | Some faces =>
          match nth_error faces 0 with
          | Some face => (455 <=? List.length face)%nat
          | None => true
          end
      | None => true
      end
  | None => true
  end.

(** The last hand whose label is ["Left"] ([left = true]) or is anything
    else ([left = false]). *)
Definition filed (left : bool) (hands : list (list Landmark.t)) (labels : list string)
    : option (list Landmark.t) :=
  last
    (map (fun p => Some (fst p))
       (filter (fun p => Bool.eqb (String.eqb (snd p) "Left"%string) left)
          (combine hands labels)))
    None.

(** A pose notification from which a record is composed, with all that
    the record is composed from: the pose result and the clock reading of
    the notification itself, and the hands and face results that are
    current when it arrives. *)
Record arrival : Set := {
  arrival_pose : PoseDetector.PoseResults;
  arrival_time : Z;
  arrival_hands : option PoseDetector.HandsResults;
  arrival_face : option PoseDetector.FaceResults
}.

(** The arrival that the notification [ev] is, if it is a pose
    notification and the current hands and face results are well formed. *)
Definition arrival_of (hands : option PoseDetector.HandsResults)
    (face : option PoseDetector.FaceResults) (ev : PoseDetector.event) : list arrival :=
  match ev with
  | PoseDetector.PoseResultsEv results now =>
      if hands_labelled hands && face_complete face
      then [{| arrival_pose := results; arrival_time := now;
               arrival_hands := hands; arrival_face := face |}]
      else []
  | _ => []
  end.

Definition hands_after (hands : option PoseDetector.HandsResults)
    (ev : PoseDetector.event) : option PoseDetector.HandsResults :=
  match ev with
  | PoseDetector.HandsResultsEv results => Some results
  | _ => hands
  end.

Definition face_after (face : option PoseDetector.FaceResults)
    (ev : PoseDetector.event) : option PoseDetector.FaceResults :=
  match ev with
  | PoseDetector.FaceResultsEv results => Some results
  | _ => face
  end.

(** The arrivals among the notifications [evs], in order, when [hands]
    and [face] are the results current at the beginning. *)
Fixpoint arrivals (hands : option PoseDetector.HandsResults)
    (face : option PoseDetector.FaceResults) (evs : list PoseDetector.event)
    : list arrival :=
  match evs with
  | [] => []
  | ev :: rest =>
      arrival_of hands face ev ++ arrivals (hands_after hands ev) (face_after face ev) rest
  end.

(** The hand of one side in a hands result, and the landmarks of the
    first face at the key indices in a face result. *)
Definition hand_of (left : bool) (hands : option PoseDetector.HandsResults)
    : option (list Landmark.t) :=
  match hands with
  | Some results =>
      match PoseDetector.multiHandLandmarks results with
      | Some hs => filed left hs (PoseDetector.multiHandedness results)
      | None => None
      end
  | None => None
  end.

Definition selected (face : list Landmark.t) (idxs : list nat) : list Landmark.t :=
  flat_map (fun idx => match nth_error face idx with
                       | Some lm => [lm]
                       | None => []
                       end) idxs.

Definition key_points_of (face : option PoseDetector.FaceResults)
    : option (list Landmark.t) :=
  match face with
  | Some results =>
      match PoseDetector.multiFaceLandmarks results with
      | Some (first :: _) => Some (selected first PoseDetector.keyIndices)
      | _ => None
      end
  | None => None
  end.

(** The record of an arrival that finds [position] records in the
    buffer. *)
Definition record_of (a : arrival) (position : nat) : PoseDetector.SkeletalData :=
  let quantized := option_map (map PoseDetector.quantize) in
  {| PoseDetector.timestamp := arrival_time a;
     PoseDetector.frame_id := position;
     PoseDetector.pose_landmarks :=
       quantized (PoseDetector.poseLandmarks (arrival_pose a));
     PoseDetector.left_hand := quantized (hand_of true (arrival_hands a));
     PoseDetector.right_hand := quantized (hand_of false (arrival_hands a));
     PoseDetector.face_landmarks := quantized (key_points_of (arrival_face a)) |}.

(** The records of the arrivals number [k], [k + 1], ... of a run whose
    batches have [B] records: the position of a record is its number
    modulo [B]. *)
Fixpoint records (B k : nat) (arrived : list arrival) : list PoseDetector.SkeletalData :=
  match arrived with
  | [] => []
  | a :: rest => record_of a (k mod B) :: records B (S k) rest
  end.

(** The clock reading of a pose notification. *)
Definition pose_time (ev : PoseDetector.event) : list Z :=
  match ev with
  | PoseDetector.PoseResultsEv _ now => [now]
  | _ => []
  end.


(** [l] is [l'] with some elements left out. *)
Inductive subseq {A : Type} : list A -> list A -> Prop :=
| subseq_nil : subseq [] []
| subseq_skip a l l' : subseq l l' -> subseq l (a :: l')
| subseq_keep a l l' : subseq l l' -> subseq (a :: l) (a :: l').

(** The turn in which [start()] of [js/app.js] finishes. *)
Definition is_metadata_event (ev : World.event) : bool :=
  match ev with
  | World.MetadataLoaded _ _ _ => true
  | _ => false
  end.

(** A request that posts one full batch, numbered from 0, to the translate
    endpoint. *)
Definition full_request (cfg : Config) (req : APIClient.Request) : Prop :=
  List.length (APIClient.frames req) = FRAME_BATCH_SIZE cfg
  /\ numbered (APIClient.frames req)
  /\ APIClient.url req = (API_URL cfg ++ "/translate")%string
  /\ APIClient.method req = "POST"%string.

(** The buffer of a detector is short of a batch and numbered from 0. *)
Definition in_order (cfg : Config) (d : PoseDetector.t) : Prop :=
  (List.length (PoseDetector.frameBuffer d) < FRAME_BATCH_SIZE cfg)%nat
  /\ numbered (PoseDetector.frameBuffer d).

(** The buffer of the detector the app holds, if it holds one, is short of
    a batch and numbered from 0. *)
Definition buffer_in_order (cfg : Config) (a : App.t) : Prop :=
  match App.poseDetector a with
  | Some d => in_order cfg d
  | None => True
  end.

(** The colour a drawing call is given, if it takes one. *)
Definition call_color (c : Overlay.draw_call) : option string :=
  match c with
  | Overlay.clearRect _ _ => None
  | Overlay.drawConnectors _ _ color _ => Some color
  | Overlay.drawLandmarks _ color _ => Some color
  end.

(** Some call among [calls] draws in [color]. *)
Definition draws_in (color : string) (calls : list Overlay.draw_call) : bool :=
  existsb
    (fun c =>
       match call_color c with
       | Some k => String.eqb k color
       | None => false
       end)
    calls.

Definition is_some {A} (o : option A) : bool :=
  match o with
  | Some _ => true
  | None => false
  end.

(** A hands result with a left and a right hand, and a face result with
    one face of 455 landmarks. *)
Definition two_hands : PoseDetector.HandsResults :=
  {| PoseDetector.multiHandLandmarks := Some [[minus_sixteenth]; [minus_sixteenth; minus_sixteenth]];
     PoseDetector.multiHandedness := ["Left"%string; "Right"%string] |}.

Definition one_face : PoseDetector.FaceResults :=
  {| PoseDetector.multiFaceLandmarks := Some [repeat minus_sixteenth 455] |}.

(** A face with too few landmarks for the key index 454. *)
Definition short_face : PoseDetector.FaceResults :=
  {| PoseDetector.multiFaceLandmarks := Some [repeat minus_sixteenth 300] |}.

(** A detector that has received a pose, two hands and a face. *)
Definition detector_with_all : PoseDetector.t :=
  PoseDetector.onFaceResults one_face
    (PoseDetector.onHandsResults two_hands (detector_with_pose minus_sixteenth)).

(** The app after a start, one frame and a stop. *)
Definition stopped_world (Number_toString : number -> string) : World.t :=
  match World.run Number_toString CONFIG
          (start_events ++ pose_frames 1 ++ [World.StopClick]) (World.init page) with
  | Some w => w
  | None => World.init page
  end.

(** The app after a start, 10 frames, a stop, a second start and a second
    stop: the detector of the first start, with its 10 records, is a
    replaced one. *)
Definition stopped_again_world (Number_toString : number -> string) : World.t :=
  match World.run Number_toString CONFIG
          (start_events ++ pose_frames 10 ++ [World.StopClick]
           ++ start_events ++ [World.StopClick]) (World.init page) with
  | Some w => w
  | None => World.init page
  end.

(** The app after a start, 10 frames, a stop and a second start, when the
    detector of the first start has gone on to 29 records. *)
Definition restarted_world (Number_toString : number -> string) : World.t :=
  match World.run Number_toString CONFIG
          (start_events ++ pose_frames 10 ++ [World.StopClick]
           ++ start_events ++ replaced_frames 0 10 19) (World.init page) with
  | Some w => w
  | None => World.init page
  end.


(* ================================================================= *)
(** ** Rounding of coordinates *)

Lemma round_half_up_bracket (m k : Z) :
  0 < k ->
  (2 * round_half_up m k - 1) * 2 ^ k <= 2 * m < (2 * round_half_up m k + 1) * 2 ^ k.
Proof.
  intros Hk. unfold round_half_up.
  rewrite Z.shiftr_div_pow2, Z.shiftl_mul_pow2 by lia.
  rewrite Z.mul_1_l.
  assert (H2 : 2 ^ k = 2 * 2 ^ (k - 1)).
  { replace k with (Z.succ (k - 1)) at 1 by lia. apply Z.pow_succ_r. lia. }
  assert (Hp : 0 < 2 ^ (k - 1)) by (apply Z.pow_pos_nonneg; lia).
  set (h := 2 ^ (k - 1)) in *.
  pose proof (Z.div_mod (m + h) (2 ^ k) ltac:(lia)) as E.
  pose proof (Z.mod_pos_bound (m + h) (2 ^ k) ltac:(lia)) as B.
  set (q := (m + h) / 2 ^ k) in *. set (r := (m + h) mod 2 ^ k) in *.
  nia.
Qed.

(** The bracket determines the integer. *)
Lemma nearest_ties_up_unique s m e n n' :
  e < 0 -> nearest_ties_up s m e n -> nearest_ties_up s m e n' -> n = n'.
Proof.
  unfold nearest_ties_up. intros He H H'.
  assert (Hp : 0 < 2 ^ (- e)) by (apply Z.pow_pos_nonneg; lia).
  set (p := 2 ^ (- e)) in *. nia.
Qed.

(** A double that lies half-way between [j] and [j + 1] goes to [j + 1],
    whatever its sign. *)
Lemma tie_goes_up s m e n j :
  e < 0 -> nearest_ties_up s m e n ->
  2 * signed s m = (2 * j + 1) * 2 ^ (- e) -> n = j + 1.
Proof.
  unfold nearest_ties_up. intros He H Hj.
  assert (Hp : 0 < 2 ^ (- e)) by (apply Z.pow_pos_nonneg; lia).
  set (p := 2 ^ (- e)) in *. nia.
Qed.

(** [Math_round] on the cases the ECMAScript text singles out: ties go
    up, a negative value of magnitude at most one half gives [-0], and the
    largest double below one half gives [0] (adding 0.5 and taking the
    floor would give 1). *)
Example Math_round_examples :
  Math_round 2.5%float = 3%float
  /\ Math_round (-2.5)%float = (-2)%float
  /\ Math_round (-2.75)%float = (-3)%float
  /\ Math_round (-0.25)%float = neg_zero
  /\ Math_round (-0.5)%float = neg_zero
  /\ Math_round 0x1.fffffffffffffp-2%float = zero
  /\ Math_round 0x1p+60%float = 0x1p+60%float
  /\ Math_round infinity = infinity
  /\ Math_round nan = nan.
Proof. repeat split; vm_compute; reflexivity. Qed.

Lemma round3_stored (v : number) : stored_as v (round3 v).
Proof.
  unfold stored_as, round3, Math_round.
  destruct (Prim2SF (v * 1000)) as [s0 | s0 | | s m e]; try reflexivity.
  destruct (0 <=? e) eqn:He; [reflexivity |].
  apply Z.leb_gt in He.
  exists (round_half_up (signed s m) (- e)). split; [| reflexivity].
  unfold nearest_ties_up. apply round_half_up_bracket. lia.
Qed.

Lemma quantize_rounds_to (lm : Landmark.t) : rounds_to lm (PoseDetector.quantize lm).
Proof.
  unfold rounds_to, PoseDetector.quantize. cbn [fst snd].
  repeat split; apply round3_stored.
Qed.

Lemma map_quantize_rounds_to (lms : list Landmark.t) :
  Forall2 rounds_to lms (map PoseDetector.quantize lms).
Proof.
  induction lms as [| lm lms IH]; cbn [map]; constructor;
    auto using quantize_rounds_to.
Qed.

Lemma forEach_hand_from_hands all hands :
  forall index handedness left right l r,
  incl hands all ->
  PoseDetector.forEach_hand hands index handedness left right = Normal (l, r) ->
  from_hands all left -> from_hands all right ->
  from_hands all l /\ from_hands all r.
Proof.
  induction hands as [| landmarks rest IH];
    intros index handedness left right l r Hincl H Hl Hr.
  - cbn in H. injection H as <- <-. split; assumption.
  - cbn [PoseDetector.forEach_hand] in H.
    destruct (PoseDetector.handedness_label handedness index) as [label | e];
      cbn [bind] in H; [| discriminate].
    assert (Hrest : incl rest all).
    { intros h Hh. apply Hincl. right. exact Hh. }
    assert (Hnew : from_hands all (Some (map PoseDetector.quantize landmarks))).
    { intros pts [= <-]. exists landmarks. split; [| reflexivity].
      apply Hincl. left. reflexivity. }
    destruct (String.eqb label "Left"%string).
    + exact (IH _ _ _ _ _ _ Hrest H Hnew Hr).
    + exact (IH _ _ _ _ _ _ Hrest H Hl Hnew).
Qed.

Lemma mapM_face_point_selects face : forall idxs pts,
  mapM (PoseDetector.face_point face) idxs = Normal pts ->
  exists lms,
    Forall2 (fun idx lm => nth_error face idx = Some lm) idxs lms
    /\ pts = map PoseDetector.quantize lms.
Proof.
  induction idxs as [| idx idxs IH]; intros pts H.
  - cbn in H. injection H as <-. exists []. split; [constructor | reflexivity].
  - cbn [mapM] in H. unfold PoseDetector.face_point at 1 in H.
    destruct (nth_error face idx) as [lm |] eqn:Hlm; cbn [bind] in H; [| discriminate].
    destruct (mapM (PoseDetector.face_point face) idxs) as [bs | e];
      cbn [bind] in H; [| discriminate].
    injection H as <-. destruct (IH bs eq_refl) as [lms [Hsel ->]].
    exists (lm :: lms). split; [constructor; assumption | reflexivity].
Qed.

(** C8 (amended).  Every landmark field of a record holds, point by point,
    the coordinates of the detected landmarks it was composed from, each
    as [Math.round(v * 1000) / 1000] computed in doubles: the scaled
    double [v * 1000] goes to the closest integer, a tie going to the
    integer closer to +infinity (also for negative coordinates), and the
    integer is divided by 1000; a scaled double that is integral, zero,
    infinite or NaN is divided by 1000 as it is. *)
Theorem stored_coordinates_round_half_up
    (now : Z) (d : PoseDetector.t) (r : PoseDetector.SkeletalData) :
  PoseDetector.compose now d = Normal r ->
  forall pts, In (Some pts) (landmark_fields r) ->
  exists lms, detected d lms /\ Forall2 rounds_to lms pts.
Proof.
  unfold PoseDetector.compose. intros H.
  match type of H with
  | bind ?hands _ = _ => destruct hands as [[l rt] | e] eqn:Hhands
  end; cbn [bind] in H; [| discriminate].
  match type of H with
  | bind ?face _ = _ => destruct face as [f | e] eqn:Hface
  end; cbn [bind] in H; [| discriminate].
  injection H as <-. cbn [landmark_fields PoseDetector.pose_landmarks
    PoseDetector.left_hand PoseDetector.right_hand PoseDetector.face_landmarks fst snd].
  assert (Hh : forall pts, l = Some pts \/ rt = Some pts ->
               exists lms, detected d lms /\ Forall2 rounds_to lms pts).
  { destruct (PoseDetector.currentHandsData d) as [hr |] eqn:Hcur.
    2: { injection Hhands as <- <-. intros pts [Hn | Hn]; discriminate Hn. }
    destruct (PoseDetector.multiHandLandmarks hr) as [hs |] eqn:Hhs.
    2: { injection Hhands as <- <-. intros pts [Hn | Hn]; discriminate Hn. }
    assert (Hnone : from_hands hs None) by (intros pts Hn; discriminate Hn).
    destruct (forEach_hand_from_hands hs hs _ _ _ _ _ _ (incl_refl hs) Hhands Hnone Hnone)
      as [Hl Hr].
    intros pts [Hpts | Hpts];
      [destruct (Hl pts Hpts) as [lms [Hin ->]] | destruct (Hr pts Hpts) as [lms [Hin ->]]];
      (exists lms; split; [| apply map_quantize_rounds_to]);
      right; left; exists hr, hs; repeat split; assumption. }
  assert (Hf : forall pts, f = Some pts ->
               exists lms, detected d lms /\ Forall2 rounds_to lms pts).
  { destruct (PoseDetector.currentFaceData d) as [fr |] eqn:Hcur.
    2: { injection Hface as <-. intros pts Hn; discriminate Hn. }
    destruct (PoseDetector.multiFaceLandmarks fr) as [faces |] eqn:Hfaces.
    2: { injection Hface as <-. intros pts Hn; discriminate Hn. }
    destruct (nth_error faces 0) as [face |] eqn:Hface0.
    2: { injection Hface as <-. intros pts Hn; discriminate Hn. }
    destruct (mapM (PoseDetector.face_point face) PoseDetector.keyIndices)
      as [ps | e] eqn:Hm; cbn [bind] in Hface; [| discriminate].
    injection Hface as <-. intros pts [= <-].
    destruct (mapM_face_point_selects _ _ _ Hm) as [lms [Hsel ->]].
    exists lms. split; [| apply map_quantize_rounds_to].
    right; right. exists fr, faces, face. repeat split; assumption. }
  intros pts [Hin | [Hin | [Hin | [Hin | []]]]].
  - destruct (PoseDetector.currentPoseData d) as [pr |] eqn:Hcur; [| discriminate].
    destruct (PoseDetector.poseLandmarks pr) as [lms |] eqn:Hlms; [| discriminate].
    injection Hin as <-. exists lms. split; [| apply map_quantize_rounds_to].
    left. exists pr. split; [exact Hcur | exact Hlms].
  - apply Hh. left. exact Hin.
  - apply Hh. right. exact Hin.
  - apply Hf. exact Hin.
Qed.

Lemma stored_coordinates_round_half_up_witness :
  let d := detector_with_pose minus_sixteenth in
  exists r, PoseDetector.compose 7 d = Normal r /\
            forall pts, In (Some pts) (landmark_fields r) ->
            exists lms, detected d lms /\ Forall2 rounds_to lms pts.
Proof.
  intros d. eexists. split; [reflexivity |].
  apply (stored_coordinates_round_half_up 7 d). reflexivity.
Defined.

(** C8, as stated, fails: the coordinate [-0.0625] scales to exactly
    [-62.5]; [Math.round] takes it to [-62] and the record stores
    [-0.062], where rounding half away from zero gives [-0.063]. *)
Lemma negative_half_rounds_toward_plus_infinity :
  PoseDetector.compose 7 (detector_with_pose minus_sixteenth)
  = Normal {| PoseDetector.timestamp := 7;
              PoseDetector.frame_id := 0;
              PoseDetector.pose_landmarks :=
                Some [((-62 / 1000)%float, 0.5%float, 0%float)];
              PoseDetector.left_hand := None;
              PoseDetector.right_hand := None;
              PoseDetector.face_landmarks := None |}
  /\ round3_half_away (-0.0625)%float = (-63 / 1000)%float
  /\ round3 (-0.0625)%float <> round3_half_away (-0.0625)%float.
Proof.
  split; [vm_compute; reflexivity |].
  split; [vm_compute; reflexivity |].
  intros H.
  apply (f_equal (fun v => PrimFloat.eqb v (-63 / 1000)%float)) in H.
  vm_compute in H. discriminate H.
Qed.

(* ================================================================= *)
(** ** Rounding twice *)

Lemma span_pointwise {A} (f g : Z -> A) (k : nat) : forall lo,
  span f k lo = span g k lo ->
  forall n, lo <= n < lo + 2 ^ Z.of_nat k -> f n = g n.
Proof.
  induction k as [| k IH]; intros lo H n Hn.
  - cbn in H, Hn. injection H as H. replace n with lo by lia. exact H.
  - cbn [span] in H. injection H as Hl Hr.
    assert (Hp : 2 ^ Z.of_nat (S k) = 2 * 2 ^ Z.of_nat k).
    { rewrite Nat2Z.inj_succ. apply Z.pow_succ_r. lia. }
    destruct (Z_lt_ge_dec n (lo + 2 ^ Z.of_nat k)).
    + apply (IH lo Hl). lia.
    + apply (IH _ Hr). lia.
Qed.

(** Every stored value [n / 1000] with [-131072 <= n < 131072] is left
    as it is by [round3]: the [2^18] cases are evaluated. *)
Lemma thousandths_fixed_block :
  span (fun n => round3 (thousandths n false)) 18 (-131072)
  = span (fun n => thousandths n false) 18 (-131072).
Proof. vm_compute. reflexivity. Qed.

Lemma thousandths_fixed (n : Z) (neg : bool) :
  -100000 <= n <= 100000 ->
  round3 (thousandths n neg) = thousandths n neg.
Proof.
  intros Hn.
  destruct (Z.eq_dec n 0) as [-> | Hz].
  - destruct neg; vm_compute; reflexivity.
  - replace (thousandths n neg) with (thousandths n false)
      by (destruct n; [contradiction | reflexivity | reflexivity]).
    apply (span_pointwise _ _ 18 (-131072) thousandths_fixed_block).
    change (2 ^ Z.of_nat 18) with 262144. lia.
Qed.

(** *** The scaled coordinate

    [x * 1000] is the binary64 product: the exact product rounded to 53
    bits, ties to even.  The lemmas below follow the library's
    specification of that rounding ([SFmul], [binary_round_aux]) far
    enough to bound the result for [|x| <= 100]. *)

Lemma digits2_pos_bounds (p : positive) :
  2 ^ (Z.pos (digits2_pos p) - 1) <= Z.pos p < 2 ^ Z.pos (digits2_pos p).
Proof.
  induction p as [p IH | p IH |]; cbn [digits2_pos].
  - rewrite Pos2Z.inj_succ.
    replace (Z.succ (Z.pos (digits2_pos p)) - 1) with (Z.succ (Z.pos (digits2_pos p) - 1)) by lia.
    rewrite !Z.pow_succ_r by lia. lia.
  - rewrite Pos2Z.inj_succ.
    replace (Z.succ (Z.pos (digits2_pos p)) - 1) with (Z.succ (Z.pos (digits2_pos p) - 1)) by lia.
    rewrite !Z.pow_succ_r by lia. lia.
  - cbn. lia.
Qed.

Lemma Zdigits2_le (m k : Z) : 0 <= k -> 0 <= m -> m < 2 ^ k -> Zdigits2 m <= k.
Proof.
  intros Hk Hm Hlt. destruct m as [| p | p]; cbn [Zdigits2]; [lia | | lia].
  destruct (Z_le_gt_dec (Z.pos (digits2_pos p)) k) as [H | H]; [exact H |].
  pose proof (proj1 (digits2_pos_bounds p)) as Hlo.
  assert (2 ^ k <= 2 ^ (Z.pos (digits2_pos p) - 1)) by (apply Z.pow_le_mono_r; lia).
  lia.
Qed.

Lemma shr_1_below (P k : Z) (r : shr_record) :
  0 <= k -> below P k r -> below P (k + 1) (shr_1 r).
Proof.
  intros Hk [Hm [Hle Hlt]]. unfold below.
  rewrite Z.pow_add_r, Z.pow_1_r by lia.
  assert (Ht : 0 < 2 ^ k) by (apply Z.pow_pos_nonneg; lia).
  set (t := 2 ^ k) in *.
  destruct r as [m rb sb]; cbn [shr_m shr_r shr_s] in *.
  destruct m as [| [p | p |] | p]; cbn [shr_1 shr_m shr_r shr_s orb]; try lia;
    (split; [lia |]; split; [lia |]; intros H; try apply Hlt in H; lia).
Qed.

Lemma iter_pos_below (n : positive) : forall P k r,
  0 <= k -> below P k r -> below P (k + Z.pos n) (iter_pos shr_1 n r).
Proof.
  induction n as [n IH | n IH |]; intros P k r Hk H; cbn [iter_pos].
  - replace (k + Z.pos n~1) with (k + 1 + Z.pos n + Z.pos n) by lia.
    apply IH; [lia |]. apply IH; [lia |]. apply shr_1_below; assumption.
  - replace (k + Z.pos n~0) with (k + Z.pos n + Z.pos n) by lia.
    apply IH; [lia |]. apply IH; assumption.
  - apply shr_1_below; assumption.
Qed.

Lemma shr_fexp_below (m e : Z) :
  0 <= m ->
  let '(mrs, e') := shr_fexp prec emax m e loc_Exact in
  e <= e'
  /\ below m (e' - e) mrs
  /\ (e' = e \/ e' = fexp prec emax (Zdigits2 m + e)).
Proof.
  intros Hm. unfold shr_fexp, shr. cbn [shr_record_of_loc].
  assert (H0 : below m 0 {| shr_m := m; shr_r := false; shr_s := false |}).
  { unfold below. cbn. split; [exact Hm |]. split; [lia | discriminate]. }
  destruct (fexp prec emax (Zdigits2 m + e) - e) as [| p | p] eqn:En.
  - rewrite Z.sub_diag. auto with zarith.
  - split; [lia |]. split; [| right; lia].
    replace (e + Z.pos p - e) with (0 + Z.pos p) by lia.
    apply iter_pos_below; [lia | exact H0].
  - rewrite Z.sub_diag. auto with zarith.
Qed.

Lemma round_nearest_even_bounds (r : shr_record) :
  let m1 := round_nearest_even (shr_m r) (loc_of_shr_record r) in
  shr_m r <= m1 <= shr_m r + 1
  /\ (shr_r r || shr_s r = false -> m1 = shr_m r).
Proof.
  destruct r as [m [|] [|]]; cbn; try destruct (IntDef.Z.even m);
    (split; [lia | intros H; try discriminate H; reflexivity]).
Qed.

Lemma fexp_negative (z : Z) : z <= 17 -> fexp prec emax z < 0.
Proof.
  intros H. unfold fexp, SpecFloat.emin, prec, emax.
  change IntDef.Z.max with Z.max. lia.
Qed.

Lemma pow_split (a b : Z) : 0 <= a -> 0 <= b -> 2 ^ (a + b) = 2 ^ a * 2 ^ b.
Proof. intros. apply Z.pow_add_r; assumption. Qed.

(** The product of a double of magnitude at most 100 with 1000, as the
    binary64 multiplication rounds it: zero, or a double below the integers
    (negative exponent) of magnitude at most 100000. *)
Lemma scaled_bound (s : bool) (mx : positive) (ex : Z) :
  Z.pos (digits2_pos mx) <= 53 ->
  ex <= -46 ->
  (ex = -46 -> Z.pos mx <= 7036874417766400) ->
  match SFmul prec emax (S754_finite s mx ex)
          (S754_finite false 8796093022208000 (-43)) with
  | S754_zero _ => True
  | S754_finite s' m e => s' = s /\ e < 0 /\ Z.pos m <= 100000 * 2 ^ (- e)
  | _ => False
  end.
Proof.
  intros Hd Hex Hm. cbn [SFmul]. unfold binary_round_aux.
  set (P := Z.pos (mx * 8796093022208000)). set (E := ex + -43).
  assert (HP0 : 0 <= P) by (unfold P; lia).
  assert (HE : E < 0) by (unfold E; lia).
  assert (Hmx : Z.pos mx <= 100 * 2 ^ (- ex)).
  { destruct (Z.eq_dec ex (-46)) as [-> | Hne].
    - specialize (Hm eq_refl). change (2 ^ (- -46)) with 70368744177664. lia.
    - pose proof (proj2 (digits2_pos_bounds mx)) as Hup.
      assert (2 ^ Z.pos (digits2_pos mx) <= 2 ^ 53) by (apply Z.pow_le_mono_r; lia).
      assert (2 ^ 47 <= 2 ^ (- ex)) by (apply Z.pow_le_mono_r; lia).
      change (2 ^ 53) with 9007199254740992 in *.
      change (2 ^ 47) with 140737488355328 in *. lia. }
  assert (HP : P <= 100000 * 2 ^ (- E)).
  { unfold P, E. rewrite Pos2Z.inj_mul.
    replace (- (ex + -43)) with (- ex + 43) by lia.
    rewrite pow_split by lia. change (2 ^ 43) with 8796093022208.
    assert (0 < 2 ^ (- ex)) by (apply Z.pow_pos_nonneg; lia). nia. }
  pose proof (shr_fexp_below P E HP0) as H1.
  destruct (shr_fexp prec emax P E loc_Exact) as [mrs' e'].
  destruct H1 as [Hle1 [[Hs0 [Hsle Hslt]] He']].
  assert (H17 : 100000 < 2 ^ 17) by (cbn; lia).
  assert (He'neg : e' < 0).
  { destruct He' as [-> | ->]; [exact HE |]. apply fexp_negative.
    assert (Zdigits2 P <= 17 - E); [| lia].
    apply Zdigits2_le; [lia | exact HP0 |].
    replace (17 - E) with (17 + - E) by lia. rewrite pow_split by lia.
    assert (0 < 2 ^ (- E)) by (apply Z.pow_pos_nonneg; lia). nia. }
  pose proof (round_nearest_even_bounds mrs') as Hr. cbn zeta in Hr.
  set (m1 := round_nearest_even (shr_m mrs') (loc_of_shr_record mrs')) in *.
  destruct Hr as [[Hm1lo Hm1hi] Hexact].
  assert (Hsplit1 : 2 ^ (- E) = 2 ^ (- e') * 2 ^ (e' - E)).
  { rewrite <- pow_split by lia. f_equal. lia. }
  assert (Hn1 : 0 < 2 ^ (e' - E)) by (apply Z.pow_pos_nonneg; lia).
  assert (Hk1 : 0 < 2 ^ (- e')) by (apply Z.pow_pos_nonneg; lia).
  assert (Hm1 : m1 <= 100000 * 2 ^ (- e')).
  { rewrite Hsplit1 in HP.
    destruct (shr_r mrs' || shr_s mrs') eqn:Hbits.
    - specialize (Hslt eq_refl).
      assert (shr_m mrs' < 100000 * 2 ^ (- e')) by nia. lia.
    - rewrite (Hexact eq_refl). nia. }
  assert (Hm10 : 0 <= m1) by lia.
  pose proof (shr_fexp_below m1 e' Hm10) as H2.
  destruct (shr_fexp prec emax m1 e' loc_Exact) as [mrs'' e''].
  destruct H2 as [Hle2 [[Hs20 [Hs2le _]] He'']].
  assert (He''neg : e'' < 0).
  { destruct He'' as [-> | ->]; [exact He'neg |]. apply fexp_negative.
    assert (Zdigits2 m1 <= 17 - e'); [| lia].
    apply Zdigits2_le; [lia | exact Hm10 |].
    replace (17 - e') with (17 + - e') by lia. rewrite pow_split by lia. nia. }
  assert (Hsplit2 : 2 ^ (- e') = 2 ^ (- e'') * 2 ^ (e'' - e')).
  { rewrite <- pow_split by lia. f_equal. lia. }
  assert (Hn2 : 0 < 2 ^ (e'' - e')) by (apply Z.pow_pos_nonneg; lia).
  assert (Hk2 : 0 < 2 ^ (- e'')) by (apply Z.pow_pos_nonneg; lia).
  assert (Hm2 : shr_m mrs'' <= 100000 * 2 ^ (- e'')).
  { rewrite Hsplit2 in Hm1. nia. }
  destruct (shr_m mrs'') as [| m | m]; [exact I | | lia].
  replace (e'' <=? emax - prec) with true
    by (symmetry; apply Z.leb_le; unfold emax, prec; lia).
  split; [destruct s; reflexivity |]. split; assumption.
Qed.

Lemma zero_of_int (v : float) (s : bool) :
  Prim2SF v = S754_zero s -> v = of_int 0 s.
Proof.
  intros H. rewrite <- (SF2Prim_Prim2SF v), H. destruct s; reflexivity.
Qed.

(** On a coordinate of magnitude at most 100, [Math.round(x * 1000)] is an
    integer of magnitude at most 100000. *)
Lemma scaled_round_in_range (x : number) :
  (abs x <=? 100)%float = true ->
  exists n neg, -100000 <= n <= 100000 /\ Math_round (x * 1000)%float = of_int n neg.
Proof.
  intros H. rewrite FloatAxioms.leb_spec, FloatAxioms.abs_spec in H.
  pose proof (Prim2SF_valid x) as Hv.
  pose proof (FloatAxioms.mul_spec x 1000%float) as Hmul.
  change (Prim2SF 1000%float) with (S754_finite false 8796093022208000 (-43)) in Hmul.
  change (Prim2SF 100%float) with (S754_finite false 7036874417766400 (-46)) in H.
  unfold SF64mul in Hmul. unfold Math_round.
  destruct (Prim2SF x) as [sx | sx | | sx mx ex].
  - cbn in Hmul. rewrite Hmul. exists 0, (xorb sx false).
    split; [lia |]. apply zero_of_int. exact Hmul.
  - discriminate H.
  - discriminate H.
  - cbn [SFabs SFleb SFcompare] in H.
    cbn [SpecFloat.valid_binary] in Hv. unfold bounded, canonical_mantissa in Hv.
    apply andb_true_iff in Hv. destruct Hv as [Hcan _]. apply Z.eqb_eq in Hcan.
    assert (Hd : Z.pos (digits2_pos mx) <= 53).
    { revert Hcan. unfold fexp, prec. change IntDef.Z.max with Z.max. lia. }
    assert (Hex : ex <= -46 /\ (ex = -46 -> Z.pos mx <= 7036874417766400)).
    { clear Hmul Hcan Hd. revert H.
      destruct (Z.compare_spec ex (-46)) as [Heq | Hlt | Hgt]; intros H.
      - split; [lia |]. intros _.
        pose proof (Pos.compare_spec mx 7036874417766400) as Hs.
        unfold Pos.compare in Hs. revert H.
        destruct Hs as [Hm | Hm | Hm]; intros H.
        + rewrite Hm. reflexivity.
        + apply Z.lt_le_incl. exact Hm.
        + discriminate H.
      - split; lia.
      - discriminate H. }
    destruct Hex as [Hex Hm].
    pose proof (scaled_bound sx mx ex Hd Hex Hm) as Hb.
    rewrite <- Hmul in Hb.
    destruct (Prim2SF (x * 1000)) as [s | s | | s m e] eqn:Hp;
      try contradiction.
    + exists 0, s. split; [lia |]. apply zero_of_int. exact Hp.
    + destruct Hb as [_ [He Hmle]].
      replace (0 <=? e) with false by (symmetry; apply Z.leb_gt; exact He).
      exists (round_half_up (signed s m) (- e)), s. split; [| reflexivity].
      pose proof (round_half_up_bracket (signed s m) (- e) ltac:(lia)) as Hbr.
      assert (Hk : 0 < 2 ^ (- e)) by (apply Z.pow_pos_nonneg; lia).
      set (n := round_half_up (signed s m) (- e)) in *.
      set (t := 2 ^ (- e)) in *.
      assert (Hs : - Z.pos m <= signed s m <= Z.pos m) by (destruct s; cbn [signed]; lia).
      split.
      * destruct (Z_le_gt_dec (-100000) n) as [Hn | Hn]; [exact Hn | exfalso].
        assert ((2 * n + 1) * t <= -200001 * t)
          by (apply Z.mul_le_mono_nonneg_r; lia).
        lia.
      * destruct (Z_le_gt_dec n 100000) as [Hn | Hn]; [exact Hn | exfalso].
        assert (200001 * t <= (2 * n - 1) * t)
          by (apply Z.mul_le_mono_nonneg_r; lia).
        lia.
Qed.

(** C9.  Rounding is idempotent on coordinates: for every double [x] of
    magnitude at most 100, a range that contains normalized device space,
    rounding the stored form of [x] again returns it unchanged. *)
Theorem round3_idempotent_on_coordinates (x : number) :
  (abs x <=? 100)%float = true ->
  round3 (round3 x) = round3 x.
Proof.
  intros H. destruct (scaled_round_in_range x H) as [n [neg [Hn Hx]]].
  assert (E : round3 x = thousandths n neg).
  { unfold round3, thousandths. rewrite Hx. reflexivity. }
  rewrite E. apply thousandths_fixed. exact Hn.
Qed.

Lemma round3_idempotent_on_coordinates_witness :
  round3 (round3 0.4375%float) = round3 0.4375%float.
Proof.
  apply (round3_idempotent_on_coordinates 0.4375%float). reflexivity.
Defined.

(** The bound matters.  Twelve orders of magnitude above the coordinate
    range the division by 1000 no longer undoes the multiplication:
    [4472052915682.859] is stored as [4472052915682.86], and rounding that
    stored value again gives [4472052915682.861]. *)
Lemma rounding_twice_differs_on_large_value :
  let x := 0x1.044ec80778b70p+42%float in
  round3 x = 0x1.044ec80778b71p+42%float
  /\ round3 (round3 x) = 0x1.044ec80778b72p+42%float
  /\ round3 (round3 x) <> round3 x.
Proof.
  intros x. split; [vm_compute; reflexivity |].
  split; [vm_compute; reflexivity |].
  intros H.
  apply (f_equal (fun v => PrimFloat.eqb v 0x1.044ec80778b71p+42%float)) in H.
  vm_compute in H. discriminate H.
Qed.

(* ================================================================= *)
(** ** The frame buffer *)

Lemma pushes_app e1 e2 :
  PoseDetector.pushes (e1 ++ e2) = PoseDetector.pushes e1 ++ PoseDetector.pushes e2.
Proof.
  induction e1 as [| [r | b] e1 IH]; cbn; [reflexivity | f_equal; exact IH | exact IH].
Qed.

Lemma callbacks_app e1 e2 :
  PoseDetector.callbacks (e1 ++ e2)
  = PoseDetector.callbacks e1 ++ PoseDetector.callbacks e2.
Proof.
  induction e1 as [| [r | b] e1 IH]; cbn; [reflexivity | exact IH | f_equal; exact IH].
Qed.

Lemma compose_frame_id now d r :
  PoseDetector.compose now d = Normal r ->
  PoseDetector.frame_id r = List.length (PoseDetector.frameBuffer d)
  /\ PoseDetector.timestamp r = now.
Proof.
  unfold PoseDetector.compose. intros H.
  match type of H with
  | bind ?hands _ = _ => destruct hands as [hs | e]
  end; cbn [bind] in H; [| discriminate].
  match type of H with
  | bind ?face _ = _ => destruct face as [f | e]
  end; cbn [bind] in H; [| discriminate].
  injection H as <-. split; reflexivity.
Qed.

Lemma numbered_nil : numbered [].
Proof. intros [| i] r H; discriminate H. Qed.

Lemma numbered_snoc l r :
  numbered l -> PoseDetector.frame_id r = List.length l -> numbered (l ++ [r]).
Proof.
  intros Hl Hr i r' H.
  destruct (Nat.lt_ge_cases i (List.length l)) as [Hi | Hi].
  - rewrite nth_error_app1 in H by exact Hi. apply Hl. exact H.
  - rewrite nth_error_app2 in H by exact Hi.
    destruct (i - List.length l)%nat as [| j] eqn:E; cbn in H.
    + injection H as <-. lia.
    + destruct j; discriminate H.
Qed.

(** What one notification does to the buffer of a detector with a
    registered callback: nothing, or one push, or one push that fills the
    buffer and releases it. *)
Lemma handle_cases cfg ev d d' effects :
  PoseDetector.handle cfg ev d = (d', effects) ->
  PoseDetector.onFrameCallback d = true ->
  PoseDetector.onFrameCallback d' = true /\
  ((effects = [] /\ PoseDetector.frameBuffer d' = PoseDetector.frameBuffer d)
   \/ exists r,
        PoseDetector.frame_id r = List.length (PoseDetector.frameBuffer d) /\
        let buffer := PoseDetector.frameBuffer d ++ [r] in
        ((effects = [PoseDetector.Push r]
          /\ PoseDetector.frameBuffer d' = buffer
          /\ (List.length buffer < FRAME_BATCH_SIZE cfg)%nat)
         \/ (effects = [PoseDetector.Push r; PoseDetector.Callback buffer]
             /\ PoseDetector.frameBuffer d' = []
             /\ (FRAME_BATCH_SIZE cfg <= List.length buffer)%nat))).
Proof.
  intros H Hcb. destruct ev as [hr | pr now | fr]; cbn [PoseDetector.handle] in H.
  - injection H as <- <-. split; [exact Hcb | left; split; reflexivity].
  - unfold PoseDetector.onPoseResults in H.
    set (d1 := PoseDetector.set_currentPoseData pr d) in *.
    destruct (PoseDetector.drawHands (PoseDetector.currentHandsData d1)) as [u | e].
    2: { injection H as <- <-. split; [exact Hcb | left; split; reflexivity]. }
    unfold PoseDetector.extractSkeletalData in H.
    destruct (PoseDetector.compose now d1) as [r | e] eqn:Hc; cbn [bind] in H.
    2: { injection H as <- <-. split; [exact Hcb | left; split; reflexivity]. }
    apply compose_frame_id in Hc. destruct Hc as [Hid _].
    change (PoseDetector.frameBuffer d1) with (PoseDetector.frameBuffer d) in *.
    change (PoseDetector.onFrameCallback d1) with (PoseDetector.onFrameCallback d) in *.
    rewrite Hcb in H.
    destruct (FRAME_BATCH_SIZE cfg <=? List.length (PoseDetector.frameBuffer d ++ [r]))%nat
      eqn:Hfull; injection H as <- <-.
    + apply Nat.leb_le in Hfull. split; [exact Hcb |].
      right. exists r. split; [exact Hid |]. right. repeat split. exact Hfull.
    + apply Nat.leb_gt in Hfull. split; [exact Hcb |].
      right. exists r. split; [exact Hid |]. left. repeat split. exact Hfull.
  - injection H as <- <-. split; [exact Hcb | left; split; reflexivity].
Qed.

(** The invariant of a run: the records pushed so far are the released
    batches followed by the buffer, every released batch is full and
    numbered from 0, and the buffer is short of a batch and numbered
    from 0. *)
Lemma run_accumulates cfg : forall evs d d' effects,
  (0 < FRAME_BATCH_SIZE cfg)%nat ->
  PoseDetector.onFrameCallback d = true ->
  (List.length (PoseDetector.frameBuffer d) < FRAME_BATCH_SIZE cfg)%nat ->
  numbered (PoseDetector.frameBuffer d) ->
  PoseDetector.run cfg evs d = (d', effects) ->
  PoseDetector.frameBuffer d ++ PoseDetector.pushes effects
  = List.concat (PoseDetector.callbacks effects) ++ PoseDetector.frameBuffer d'
  /\ Forall (fun b => List.length b = FRAME_BATCH_SIZE cfg /\ numbered b)
            (PoseDetector.callbacks effects)
  /\ (List.length (PoseDetector.frameBuffer d') < FRAME_BATCH_SIZE cfg)%nat
  /\ numbered (PoseDetector.frameBuffer d').
Proof.
  induction evs as [| ev evs IH]; intros d d' effects HB Hcb Hlen Hnum Hrun.
  - cbn in Hrun. injection Hrun as <- <-. cbn. rewrite app_nil_r.
    repeat split; auto.
  - cbn [PoseDetector.run] in Hrun.
    destruct (PoseDetector.handle cfg ev d) as [d1 e1] eqn:Hh.
    destruct (PoseDetector.run cfg evs d1) as [d2 e2] eqn:Hr.
    injection Hrun as <- <-.
    rewrite pushes_app, callbacks_app.
    destruct (handle_cases _ _ _ _ _ Hh Hcb) as [Hcb1 [[-> Hbuf] | [r [Hid Hcase]]]].
    + cbn [PoseDetector.pushes PoseDetector.callbacks app].
      rewrite <- Hbuf in *. exact (IH d1 d2 e2 HB Hcb1 Hlen Hnum Hr).
    + cbn zeta in Hcase.
      pose proof (numbered_snoc _ _ Hnum Hid) as Hnum1.
      destruct Hcase as [[-> [Hbuf Hshort]] | [-> [Hbuf Hfull]]].
      * cbn [PoseDetector.pushes PoseDetector.callbacks app].
        rewrite <- Hbuf in Hshort, Hnum1.
        destruct (IH d1 d2 e2 HB Hcb1 Hshort Hnum1 Hr) as [Heq Hrest].
        split; [| exact Hrest].
        rewrite <- Heq, Hbuf, <- app_assoc. reflexivity.
      * cbn [PoseDetector.pushes PoseDetector.callbacks app List.concat].
        assert (Hshort : (List.length (PoseDetector.frameBuffer d1) < FRAME_BATCH_SIZE cfg)%nat)
          by (rewrite Hbuf; exact HB).
        assert (Hnum0 : numbered (PoseDetector.frameBuffer d1))
          by (rewrite Hbuf; exact numbered_nil).
        destruct (IH d1 d2 e2 HB Hcb1 Hshort Hnum0 Hr) as [Heq [Hall Hrest]].
        rewrite Hbuf in Heq. cbn [app] in Heq.
        split; [| split; [| exact Hrest]].
        -- rewrite Heq, <- !app_assoc. reflexivity.
        -- constructor; [| exact Hall]. split; [| exact Hnum1].
           rewrite length_app in *. cbn [List.length] in *. lia.
Qed.

Lemma length_concat_full (B : nat) (batches : list PoseDetector.Batch) :
  Forall (fun b => List.length b = B) batches ->
  List.length (List.concat batches) = (B * List.length batches)%nat.
Proof.
  induction 1 as [| b bs Hb _ IH]; cbn [List.concat List.length].
  - lia.
  - rewrite length_app, IH, Hb. lia.
Qed.

(* ================================================================= *)
(** ** Determinism of extraction *)

(** C5 (amended).  Extraction is deterministic in the landmark fields:
    two extractions on identical detection inputs (the same latest pose,
    hands and face results) either throw the same error or give records
    with the same [pose_landmarks], [left_hand], [right_hand] and
    [face_landmarks], whatever the clock and the buffer are.  The
    [timestamp] and the [frame_id] of the records are not covered. *)
Theorem landmark_fields_deterministic
    (now1 now2 : Z) (d1 d2 : PoseDetector.t) :
  PoseDetector.currentPoseData d1 = PoseDetector.currentPoseData d2 ->
  PoseDetector.currentHandsData d1 = PoseDetector.currentHandsData d2 ->
  PoseDetector.currentFaceData d1 = PoseDetector.currentFaceData d2 ->
  match PoseDetector.compose now1 d1, PoseDetector.compose now2 d2 with
  | Normal r1, Normal r2 => landmark_fields r1 = landmark_fields r2
  | Throw e1, Throw e2 => e1 = e2
  | _, _ => False
  end.
Proof.
  intros Hp Hh Hf. unfold PoseDetector.compose. rewrite Hp, Hh, Hf.
  match goal with
  | |- context [bind ?hands _] => destruct hands as [hs | e]
  end; cbn [bind]; [| reflexivity].
  match goal with
  | |- context [bind ?face _] => destruct face as [f | e]
  end; cbn [bind]; reflexivity.
Qed.

Lemma landmark_fields_deterministic_witness :
  let d1 := detector_with_pose minus_sixteenth in
  let d2 := PoseDetector.set_frameBuffer [record_at 7 0] d1 in
  match PoseDetector.compose 7 d1, PoseDetector.compose 8 d2 with
  | Normal r1, Normal r2 => landmark_fields r1 = landmark_fields r2
  | Throw e1, Throw e2 => e1 = e2
  | _, _ => False
  end.
Proof.
  intros d1 d2.
  exact (landmark_fields_deterministic 7 8 d1 d2 eq_refl eq_refl eq_refl).
Defined.

(** C5, as stated, fails: the same static frame delivered twice, even at
    the same clock reading, gives two records that differ in [frame_id]. *)
Lemma same_frame_twice_gives_different_records :
  let d := detector_with_pose minus_sixteenth in
  PoseDetector.pushes (snd (PoseDetector.run CONFIG [pose_frame 7; pose_frame 7] d))
  = [record_at 7 0; record_at 7 1]
  /\ record_at 7 0 <> record_at 7 1.
Proof.
  split; [vm_compute; reflexivity |].
  intros H. apply (f_equal PoseDetector.frame_id) in H. discriminate H.
Qed.

(* ================================================================= *)
(** ** The health check *)

(** C10.  [healthCheck] never throws: whatever the outcome of the request,
    it returns a value, which is the parsed body when a response arrived
    and its body was valid JSON, and [null] when the request failed or the
    body could not be parsed. *)
Theorem healthCheck_total (o : APIClient.FetchOutcome) :
  exists v,
    APIClient.healthCheck o = Normal v
    /\ match o with
       | APIClient.Rejected _ => v = JNull
       | APIClient.Response _ (Throw _) => v = JNull
       | APIClient.Response _ (Normal body) => v = body
       end.
Proof.
  destruct o as [e | status [body | e]]; cbn;
    eexists; split; reflexivity.
Qed.

(* ================================================================= *)
(** ** The health probe and [start()] *)

Lemma healthCheck_returns (o : APIClient.FetchOutcome) :
  exists health, APIClient.healthCheck o = Normal health.
Proof. destruct o as [e | status [body | e]]; eexists; reflexivity. Qed.

Lemma healthy_iff (body : json) :
  App.healthy body = true <-> status_ok_body body.
Proof.
  unfold App.healthy, status_ok_body.
  destruct body as [| b | n | s | items | props]; cbn [truthy get].
  1-5: split; [| intros [props [H _]]; discriminate H].
  - discriminate.
  - destruct b; cbn; discriminate.
  - destruct (negb _); cbn; discriminate.
  - destruct (negb _); cbn; discriminate.
  - cbn; discriminate.
  - cbn [strict_eq_string]. split.
    + intros H. exists props. split; [reflexivity |].
      destruct (lookup "status" props) as [[| b | n | s | items | ps] |];
        try discriminate H.
      apply String.eqb_eq in H. subst s. reflexivity.
    + intros [ps [[= <-] Hl]]. rewrite Hl. reflexivity.
Qed.

(** C7 (amended).  The probe only sets the status line: whatever the
    state of the app when the answer arrives, every field other than the
    text and the class of the status element is left as it is.  The text is
    the failure message when the request fails at the network level, when
    the body is not valid JSON, and when the parsed body is not an object
    whose [status] is ["ok"]; it is "Ready to start" for a 2xx response
    whose body has [status] ["ok"].  [start()] does not look at the result
    of the probe: after any probe outcome, a start whose camera request and
    initialisation succeed leaves the app running. *)
Theorem probe_sets_status_and_start_is_not_gated
    (page0 : App.Elements) (o : APIClient.FetchOutcome) :
  let a := App.checkAPIHealth o (App.new page0) in
  (forall a0,
      exists text,
        App.checkAPIHealth o a0 = App.updateStatus text "" a0
        /\ (text = "Ready to start"%string \/ text = failed_text))
  /\ match o with
     | APIClient.Rejected _ | APIClient.Response _ (Throw _) =>
         App.status_textContent (App.elements a) = failed_text
     | APIClient.Response status (Normal body) =>
         (~ status_ok_body body ->
          App.status_textContent (App.elements a) = failed_text)
         /\ (APIClient.ok status = true -> status_ok_body body ->
             App.status_textContent (App.elements a) = "Ready to start"%string)
     end
  /\ App.isRunning a = false
  /\ forall stream videoWidth videoHeight,
       let a' := App.start_metadata videoWidth videoHeight (Normal tt)
                   (App.start_camera (Normal stream) (App.start a)) in
       App.isRunning a' = true
       /\ App.status_textContent (App.elements a') = "Active - Start signing!"%string.
Proof.
  intros a. subst a. split.
  { intros a0. unfold App.checkAPIHealth.
    destruct (healthCheck_returns o) as [health ->].
    destruct (App.healthy health); eexists; (split; [reflexivity |]); auto. }
  unfold App.checkAPIHealth.
  destruct o as [e | status [body | e]]; cbn [APIClient.healthCheck try_catch].
  - cbn. repeat split.
  - destruct (App.healthy body) eqn:Hb.
    + apply healthy_iff in Hb. cbn. repeat split; intros; try contradiction; reflexivity.
    + assert (Hn : ~ status_ok_body body).
      { intros H. apply healthy_iff in H. rewrite H in Hb. discriminate Hb. }
      cbn. repeat split; intros; try contradiction; reflexivity.
  - cbn. repeat split.
Qed.

(** C7, as stated, fails: the probe is answered with [{"status": "down"}],
    the status line shows the failure, and the start that follows is
    carried out all the same. *)
Lemma start_after_failed_probe_runs :
  let probe := World.HealthSettled (APIClient.Response 200 (Normal down_body)) in
  (exists w, World.run number_text CONFIG [probe] (World.init page) = Some w
             /\ App.status_textContent (App.elements (World.app w)) = failed_text)
  /\ (exists w, World.run number_text CONFIG (probe :: start_events) (World.init page) = Some w
                /\ App.isRunning (World.app w) = true
                /\ App.status_textContent (App.elements (World.app w))
                   = "Active - Start signing!"%string).
Proof.
  split; eexists; (split; [vm_compute; reflexivity |]); repeat split.
Qed.

(* ================================================================= *)
(** ** Submission of batches *)

Lemma show_result_keeps Number_toString result a :
  App.isRunning (fst (App.show_result Number_toString result a)) = App.isRunning a
  /\ App.poseDetector (fst (App.show_result Number_toString result a)) = App.poseDetector a.
Proof.
  unfold App.show_result.
  destruct (get result "translation") as [t | e]; [| split; reflexivity].
  destruct (get result "words") as [[[| b | n | s | items | ps] |] | e];
    split; reflexivity.
Qed.

Lemma onFrameBatch_resume_keeps Number_toString o a :
  App.isRunning (App.onFrameBatch_resume Number_toString o a) = App.isRunning a
  /\ App.poseDetector (App.onFrameBatch_resume Number_toString o a) = App.poseDetector a.
Proof.
  unfold App.onFrameBatch_resume.
  destruct (APIClient.translate o) as [result | e]; [| split; reflexivity].
  pose proof (show_result_keeps Number_toString result a) as H.
  destruct (App.show_result Number_toString result a) as [a' [u | e]];
    cbn [fst] in H; exact H.
Qed.

Lemma checkAPIHealth_keeps o a :
  App.isRunning (App.checkAPIHealth o a) = App.isRunning a
  /\ App.poseDetector (App.checkAPIHealth o a) = App.poseDetector a.
Proof.
  unfold App.checkAPIHealth.
  destruct (APIClient.healthCheck o) as [health | e]; [| split; reflexivity].
  destruct (App.healthy health); split; reflexivity.
Qed.

(** What the registered callback does with the batches of one turn. *)
Lemma deliver_spec cfg batches now : forall w,
  let w' := World.deliver cfg batches now w in
  let sent :=
    if App.isRunning (World.app w)
    then map (fun frames => APIClient.translate_request cfg frames now) batches
    else [] in
  World.in_flight w' = World.in_flight w ++ sent
  /\ World.posted w' = World.posted w ++ sent
  /\ App.isRunning (World.app w') = App.isRunning (World.app w)
  /\ App.poseDetector (World.app w') = App.poseDetector (World.app w)
  /\ World.replaced w' = World.replaced w.
Proof.
  induction batches as [| frames rest IH]; intros w; cbn zeta.
  - cbn [World.deliver map]. destruct (App.isRunning (World.app w));
      rewrite !app_nil_r; repeat split.
  - cbn [World.deliver map]. unfold App.onFrameBatch.
    destruct (App.isRunning (World.app w)) eqn:Hrun; cbn [negb].
    + match goal with
      | |- context [World.deliver cfg rest now ?w1] =>
          destruct (IH w1) as [Hf [Hp [Hr [Hd Hrep]]]]
      end.
      cbn [World.send World.app World.in_flight World.posted World.replaced] in Hf, Hp, Hr, Hd, Hrep.
      change (App.isRunning (App.updateStatus "Processing..." "processing" (World.app w)))
        with (App.isRunning (World.app w)) in *.
      rewrite Hrun in *. rewrite Hf, Hp, Hr, Hd, Hrep, <- !app_assoc. repeat split.
    + match goal with
      | |- context [World.deliver cfg rest now ?w1] =>
          destruct (IH w1) as [Hf [Hp [Hr [Hd Hrep]]]]
      end.
      cbn [World.send World.app World.in_flight World.posted World.replaced] in Hf, Hp, Hr, Hd, Hrep.
      rewrite Hrun in *. rewrite Hf, Hp, Hr, Hd, Hrep, !app_nil_r. repeat split.
Qed.

(** What one turn posts: the first submissions of the batches released in
    it, and nothing else. *)
Lemma step_submits Number_toString cfg ev w w' :
  World.step Number_toString cfg ev w = Some w' ->
  World.posted w' = World.posted w ++ first_submissions cfg ev w
  /\ World.in_flight w'
     = match ev with
       | World.TranslateSettled i _ => World.remove_nth i (World.in_flight w)
       | _ => World.in_flight w ++ first_submissions cfg ev w
       end.
Proof.
  unfold first_submissions.
  destruct ev as [o | | r | vw vh init | | dev | k dev | i o];
    cbn [World.step released turn_clock map]; intros H.
  - injection H as <-. destruct (App.isRunning (World.app w));
      cbn [World.with_app World.posted World.in_flight]; rewrite !app_nil_r; split; reflexivity.
  - injection H as <-. destruct (App.isRunning (World.app w));
      cbn [World.with_app World.posted World.in_flight]; rewrite !app_nil_r; split; reflexivity.
  - injection H as <-. unfold World.retire.
    destruct r as [stream | e]; [destruct (App.poseDetector (World.app w)) |];
      destruct (App.isRunning (World.app w));
      cbn [World.with_app World.set_replaced World.posted World.in_flight];
      rewrite !app_nil_r; split; reflexivity.
  - injection H as <-. destruct (App.isRunning (World.app w));
      cbn [World.with_app World.posted World.in_flight]; rewrite !app_nil_r; split; reflexivity.
  - injection H as <-. destruct (App.isRunning (World.app w));
      cbn [World.with_app World.posted World.in_flight]; rewrite !app_nil_r; split; reflexivity.
  - destruct (App.poseDetector (World.app w)) as [d |]; [| discriminate H].
    destruct (PoseDetector.isInitialized d); [| discriminate H].
    destruct (PoseDetector.handle cfg dev d) as [d' effects].
    injection H as <-. cbn [snd].
    match goal with
    | |- context [World.deliver cfg ?bs ?t ?w0] =>
        destruct (deliver_spec cfg bs t w0) as [Hf [Hp _]]
    end.
    cbn [World.with_app World.app World.posted World.in_flight
         App.set_poseDetector App.isRunning] in Hf, Hp.
    split; assumption.
  - destruct (nth_error (World.replaced w) k) as [d |]; [| discriminate H].
    destruct (PoseDetector.isInitialized d); [| discriminate H].
    destruct (PoseDetector.handle cfg dev d) as [d' effects].
    injection H as <-. cbn [snd].
    match goal with
    | |- context [World.deliver cfg ?bs ?t ?w0] =>
        destruct (deliver_spec cfg bs t w0) as [Hf [Hp _]]
    end.
    cbn [World.set_replaced World.app World.posted World.in_flight] in Hf, Hp.
    split; assumption.
  - destruct (nth_error (World.in_flight w) i); [| discriminate H].
    injection H as <-. destruct (App.isRunning (World.app w));
      cbn [World.posted World.in_flight]; rewrite !app_nil_r; split; reflexivity.
Qed.

Lemma run_submits Number_toString cfg : forall evs w w',
  World.run Number_toString cfg evs w = Some w' ->
  World.posted w' = World.posted w ++ submissions Number_toString cfg evs w.
Proof.
  induction evs as [| ev evs IH]; intros w w' H.
  - injection H as <-. cbn. rewrite app_nil_r. reflexivity.
  - cbn [World.run submissions] in *.
    destruct (World.step Number_toString cfg ev w) as [w1 |] eqn:Hs; [| discriminate H].
    rewrite (IH _ _ H), (proj1 (step_submits _ _ _ _ _ Hs)), <- app_assoc. reflexivity.
Qed.

(** C6.  When the request of a submitted batch is rejected at the network
    level or answered with a non-2xx status, [translate] throws; the app
    shows the transient status "Translation failed. Retrying...", stays as
    running as it was, keeps its detectors and its displayed translation,
    and sends nothing: the request leaves the set of requests in flight
    and nothing is posted in that turn.  Nor is the batch sent again
    later: whatever the events that follow, detector notifications
    included, the requests posted after the failure are the first
    submissions of the batches released in those turns, one request per
    newly released batch and nothing else. *)
Theorem failed_submission_is_surfaced_and_not_retried
    (Number_toString : number -> string) (cfg : Config)
    (w : World.t) (i : nat) (req : APIClient.Request) (o : APIClient.FetchOutcome) :
  nth_error (World.in_flight w) i = Some req ->
  submission_failure o ->
  (exists e, APIClient.translate o = Throw e)
  /\ exists w',
       World.step Number_toString cfg (World.TranslateSettled i o) w = Some w'
       /\ App.status_textContent (App.elements (World.app w')) = retry_text
       /\ App.isRunning (World.app w') = App.isRunning (World.app w)
       /\ App.poseDetector (World.app w') = App.poseDetector (World.app w)
       /\ World.replaced w' = World.replaced w
       /\ App.translation_textContent (App.elements (World.app w'))
          = App.translation_textContent (App.elements (World.app w))
       /\ App.words_textContent (App.elements (World.app w'))
          = App.words_textContent (App.elements (World.app w))
       /\ World.in_flight w' = World.remove_nth i (World.in_flight w)
       /\ World.posted w' = World.posted w
       /\ forall evs w'',
            World.run Number_toString cfg evs w' = Some w'' ->
            World.posted w'' = World.posted w ++ submissions Number_toString cfg evs w'.
Proof.
  intros Hreq Hfail.
  assert (Ht : exists e, APIClient.translate o = Throw e).
  { destruct o as [e | status body]; cbn [submission_failure] in Hfail;
      unfold APIClient.translate.
    - exists e. reflexivity.
    - rewrite Hfail. cbn. eexists. reflexivity. }
  split; [exact Ht |]. destruct Ht as [e Ht].
  cbn [World.step]. rewrite Hreq. eexists. split; [reflexivity |].
  unfold App.onFrameBatch_resume. rewrite Ht. cbn.
  repeat split.
  intros evs w'' Hrun.
  apply (run_submits _ _ _ _ _ Hrun).
Qed.

Lemma failed_submission_is_surfaced_and_not_retried_witness :
  let w := world_with_batch_in_flight number_text in
  let o := APIClient.Response 500 (Normal JNull) in
  exists w',
    World.step number_text CONFIG (World.TranslateSettled 0 o) w = Some w'
    /\ App.status_textContent (App.elements (World.app w')) = retry_text
    /\ App.isRunning (World.app w') = true
    /\ World.in_flight w' = []
    /\ World.posted w' = [APIClient.translate_request CONFIG (batch_from 0 30) 30]
    /\ forall w'',
         World.run number_text CONFIG (pose_frames_from 30 30) w' = Some w'' ->
         World.posted w''
         = [APIClient.translate_request CONFIG (batch_from 0 30) 30;
            APIClient.translate_request CONFIG (batch_from 30 30) 60].
Proof.
  intros w o.
  destruct (failed_submission_is_surfaced_and_not_retried number_text CONFIG w 0
              (APIClient.translate_request CONFIG (batch_from 0 30) 30) o)
    as [_ [w' [Hstep [Hstatus [Hrun [_ [_ [_ [_ [Hfl [Hposted Hlater]]]]]]]]]]].
  - vm_compute. reflexivity.
  - reflexivity.
  - exists w'. repeat split; try assumption.
    intros w'' Hw''. rewrite (Hlater _ _ Hw'').
    vm_compute in Hstep. injection Hstep as <-.
    vm_compute. reflexivity.
Defined.

Lemma onFrameBatch_running cfg frames now a :
  App.isRunning a = true ->
  App.onFrameBatch cfg frames now a
  = (App.updateStatus "Processing..." "processing" a,
     [APIClient.translate_request cfg frames now]).
Proof. intros H. unfold App.onFrameBatch. rewrite H. reflexivity. Qed.

(** C3 (amended).  While the app is running, every batch the detector
    releases is sent at once, whatever is already in flight: the requests
    in flight grow by one request per released batch, in release order, so
    their number is not bounded by one; no batch is held back in a pending
    slot and none is discarded. *)
Theorem released_batches_are_sent_at_once
    (cfg : Config) (batches : list PoseDetector.Batch) (now : Z) (w : World.t) :
  App.isRunning (World.app w) = true ->
  let w' := World.deliver cfg batches now w in
  let requests := map (fun frames => APIClient.translate_request cfg frames now) batches in
  World.in_flight w' = World.in_flight w ++ requests
  /\ World.posted w' = World.posted w ++ requests
  /\ App.isRunning (World.app w') = true.
Proof.
  revert w. induction batches as [| frames rest IH]; intros w Hrun; cbn zeta.
  - cbn. rewrite !app_nil_r. repeat split. exact Hrun.
  - cbn [World.deliver map]. rewrite (onFrameBatch_running _ _ _ _ Hrun).
    match goal with
    | |- context [World.deliver cfg rest now ?w1] =>
        destruct (IH w1 Hrun) as [Hf [Hp Hr]]
    end.
    rewrite Hf, Hp. cbn [World.send World.in_flight World.posted].
    rewrite <- !app_assoc. repeat split. exact Hr.
Qed.

Lemma released_batches_are_sent_at_once_witness :
  let w := world_with_batch_in_flight number_text in
  let w' := World.deliver CONFIG [batch_from 30 30] 60 w in
  World.in_flight w'
  = [APIClient.translate_request CONFIG (batch_from 0 30) 30;
     APIClient.translate_request CONFIG (batch_from 30 30) 60]
  /\ World.posted w'
     = [APIClient.translate_request CONFIG (batch_from 0 30) 30;
        APIClient.translate_request CONFIG (batch_from 30 30) 60]
  /\ App.isRunning (World.app w') = true.
Proof.
  intros w w'.
  exact (released_batches_are_sent_at_once CONFIG [batch_from 30 30] 60 w eq_refl).
Defined.

(** C3, as stated, fails: 60 frames give two batches; with no answer from
    the service in between, both requests are in flight together. *)
Lemma two_batches_in_flight :
  exists w,
    World.run number_text CONFIG (start_events ++ pose_frames 60) (World.init page) = Some w
    /\ World.in_flight w
       = [APIClient.translate_request CONFIG (batch_from 0 30) 30;
          APIClient.translate_request CONFIG (batch_from 30 30) 60]
    /\ List.length (World.in_flight w) = 2%nat.
Proof.
  eexists. split; [vm_compute; reflexivity |]. split; reflexivity.
Qed.

(* ================================================================= *)
(** ** Stopping *)

(** C2 (amended).  Stopping flushes nothing: [stop()] sends no request
    and returns no batch; it leaves the detector as it is, the records in
    its frame buffer included, and the replaced detectors too; the app is
    then not running, and a batch handed to [onFrameBatch] while the app
    is not running is dropped without a request. *)
Theorem stop_flushes_nothing
    (Number_toString : number -> string) (cfg : Config) (w : World.t) :
  exists w',
    World.step Number_toString cfg World.StopClick w = Some w'
    /\ World.posted w' = World.posted w
    /\ World.in_flight w' = World.in_flight w
    /\ App.poseDetector (World.app w') = App.poseDetector (World.app w)
    /\ World.replaced w' = World.replaced w
    /\ App.isRunning (World.app w') = false
    /\ forall a frames now,
         App.isRunning a = false -> App.onFrameBatch cfg frames now a = (a, []).
Proof.
  destruct w as [[detector running el] others flying sent].
  eexists. split; [reflexivity |].
  destruct detector as [d |]; cbn [World.with_app World.posted World.in_flight
    World.replaced World.app App.stop App.isRunning App.poseDetector
    App.set_isRunning App.set_poseDetector App.with_elements App.updateStatus
    PoseDetector.stop];
    (repeat split; intros a frames now Ha; unfold App.onFrameBatch; rewrite Ha; reflexivity).
Qed.

(** C2, as stated, fails: after a start and one frame the buffer holds one
    record; the stop that follows posts nothing, and the record stays in
    the buffer of the stopped detector. *)
Lemma stop_leaves_partial_batch_unsent :
  exists w,
    World.run number_text CONFIG
      (start_events ++ pose_frames 1 ++ [World.StopClick]) (World.init page) = Some w
    /\ option_map PoseDetector.frameBuffer (App.poseDetector (World.app w))
       = Some [record_at 1 0]
    /\ World.posted w = []
    /\ World.in_flight w = []
    /\ App.isRunning (World.app w) = false.
Proof.
  eexists. split; [vm_compute; reflexivity |]. repeat split.
Qed.

(** What becomes of the records that are in the buffer at a stop depends
    on what follows, since the stopped detector goes on receiving frames.
    After a start, 10 frames and a stop, 20 more frames fill its buffer:
    if the app is still stopped, the batch of 30 is dropped and the buffer
    starts again from nothing; if the app has been started again in
    between, so that the detector is a replaced one, the batch is posted,
    the 10 records from before the stop at its head. *)
Lemma records_buffered_at_stop_later :
  let stop_after_10 := start_events ++ pose_frames 10 ++ [World.StopClick] in
  (exists w,
      World.run number_text CONFIG
        (stop_after_10 ++ map World.Detector (map (fun i => pose_frame (Z.of_nat i)) (seq 11 20)))
        (World.init page) = Some w
      /\ World.posted w = []
      /\ option_map PoseDetector.frameBuffer (App.poseDetector (World.app w)) = Some [])
  /\ (exists w,
         World.run number_text CONFIG
           (stop_after_10 ++ start_events ++ replaced_frames 0 10 20)
           (World.init page) = Some w
         /\ World.posted w = [APIClient.translate_request CONFIG (batch_from 0 30) 30]).
Proof.
  split; eexists; (split; [vm_compute; reflexivity |]); repeat split.
Qed.

(** C4, evaluated on the code: a batch is in flight, the user stops, and
    the answer arrives afterwards.  [stop()] had reset the texts; the late
    answer overwrites them and sets the status back to active although the
    app is stopped. *)
Theorem late_result_overwrites_display_after_stop :
  let w := world_with_batch_in_flight number_text in
  let answer := World.TranslateSettled 0 (APIClient.Response 200 (Normal hello_body)) in
  exists w1 w2,
    World.step number_text CONFIG World.StopClick w = Some w1
    /\ App.translation_textContent (App.elements (World.app w1)) = "Start signing..."%string
    /\ App.words_textContent (App.elements (World.app w1)) = ""%string
    /\ App.status_textContent (App.elements (World.app w1)) = "Stopped"%string
    /\ World.step number_text CONFIG answer w1 = Some w2
    /\ App.isRunning (World.app w2) = false
    /\ App.translation_textContent (App.elements (World.app w2)) = "hello"%string
    /\ App.words_textContent (App.elements (World.app w2)) = "Recognized: hello"%string
    /\ App.status_textContent (App.elements (World.app w2))
       = "Active - Start signing!"%string.
Proof.
  intros w answer. eexists. eexists.
  split; [vm_compute; reflexivity |].
  do 3 (split; [reflexivity |]).
  split; [vm_compute; reflexivity |].
  repeat split.
Qed.

(* ================================================================= *)
(** ** When a pose notification gives a record *)

Lemma mapM_normal_iff {A B} (f : A -> completion B) (l : list A) :
  (exists bs, mapM f l = Normal bs) <-> Forall (fun a => exists b, f a = Normal b) l.
Proof.
  induction l as [| a l IH]; cbn [mapM].
  - split; [constructor | intros _; eexists; reflexivity].
  - split.
    + intros [bs H]. destruct (f a) as [b | e] eqn:Ha; cbn [bind] in H; [| discriminate H].
      destruct (mapM f l) as [bs' | e] eqn:Hl; cbn [bind] in H; [| discriminate H].
      constructor; [exists b; exact Ha | apply IH; exists bs'; reflexivity].
    + intros H. inversion H as [| a' l' [b Hb] Hl]; subst.
      apply IH in Hl. destruct Hl as [bs Hbs].
      rewrite Hb, Hbs. cbn [bind]. eexists; reflexivity.
Qed.

Lemma mapM_throw_or_normal {A B} (f : A -> completion B) (l : list A) :
  (exists bs, mapM f l = Normal bs) \/ (exists e, mapM f l = Throw e).
Proof. destruct (mapM f l) as [bs | e]; [left | right]; eexists; reflexivity. Qed.

Lemma handedness_label_normal labels i :
  (exists label, PoseDetector.handedness_label labels i = Normal label)
  <-> (i < List.length labels)%nat.
Proof.
  unfold PoseDetector.handedness_label. rewrite <- nth_error_Some.
  destruct (nth_error labels i) as [label |]; split.
  - intros _. discriminate.
  - intros _. exists label. reflexivity.
  - intros [label H]. discriminate H.
  - intros H. contradiction H. reflexivity.
Qed.

Lemma drawHands_normal_iff handsData :
  PoseDetector.drawHands handsData = Normal tt <-> hands_labelled handsData = true.
Proof.
  unfold PoseDetector.drawHands, hands_labelled.
  destruct handsData as [results |]; [| split; reflexivity].
  destruct (PoseDetector.multiHandLandmarks results) as [hs |]; [| split; reflexivity].
  set (labels := PoseDetector.multiHandedness results).
  rewrite Nat.leb_le.
  assert (Hm : (exists bs, mapM (PoseDetector.handedness_label labels)
                             (seq 0 (List.length hs)) = Normal bs)
               <-> (List.length hs <= List.length labels)%nat).
  { rewrite mapM_normal_iff, Forall_forall. split.
    - intros H. destruct (List.length hs) as [| n] eqn:En; [lia |].
      assert (Hin : In n (seq 0 (S n))) by (apply in_seq; lia).
      apply H, handedness_label_normal in Hin. lia.
    - intros H i Hi. apply in_seq in Hi. apply handedness_label_normal. lia. }
  split.
  - intros H. apply Hm.
    destruct (mapM (PoseDetector.handedness_label labels) (seq 0 (List.length hs)))
      as [bs | e]; [exists bs; reflexivity | discriminate H].
  - intros H. apply Hm in H. destruct H as [bs ->]. reflexivity.
Qed.

Lemma forEach_hand_normal_iff hands : forall index labels left right,
  (exists l r, PoseDetector.forEach_hand hands index labels left right = Normal (l, r))
  <-> hands = [] \/ (index + List.length hands <= List.length labels)%nat.
Proof.
  induction hands as [| landmarks rest IH]; intros index labels left right.
  - split; [intros _; left; reflexivity | intros _; exists left, right; reflexivity].
  - cbn [PoseDetector.forEach_hand List.length]. split.
    + intros [l [r H]]. right.
      destruct (PoseDetector.handedness_label labels index) as [label | e] eqn:Hl;
        cbn [bind] in H; [| discriminate H].
      assert (Hi : (index < List.length labels)%nat)
        by (apply handedness_label_normal; exists label; exact Hl).
      assert (Hrest : rest = [] \/ (S index + List.length rest <= List.length labels)%nat).
      { destruct (String.eqb label "Left"%string);
          eapply IH; exists l, r; exact H. }
      destruct Hrest as [-> | Hrest]; cbn [List.length]; lia.
    + intros [Hnil | Hlen]; [discriminate Hnil |].
      destruct (proj2 (handedness_label_normal labels index) ltac:(lia)) as [label ->].
      cbn [bind]. destruct (String.eqb label "Left"%string); apply IH; right; lia.
Qed.

Lemma hands_part_normal_iff handsData :
  (exists h,
      match handsData with
      | Some results =>
          match PoseDetector.multiHandLandmarks results with
          | Some hs =>
              PoseDetector.forEach_hand hs 0 (PoseDetector.multiHandedness results) None None
          | None => Normal (None, None)
          end
      | None => Normal (None, None)
      end = Normal h)
  <-> hands_labelled handsData = true.
Proof.
  unfold hands_labelled.
  destruct handsData as [results |]; [| split; [reflexivity | eexists; reflexivity]].
  destruct (PoseDetector.multiHandLandmarks results) as [hs |];
    [| split; [reflexivity | eexists; reflexivity]].
  rewrite Nat.leb_le. split.
  - intros [[l r] H].
    destruct (proj1 (forEach_hand_normal_iff hs 0
                       (PoseDetector.multiHandedness results) None None))
      as [-> | Hlen]; [exists l, r; exact H | cbn; lia | exact Hlen].
  - intros H.
    destruct (proj2 (forEach_hand_normal_iff hs 0 (PoseDetector.multiHandedness results)
                       None None)) as [l [r Hlr]]; [right; exact H |].
    exists (l, r). exact Hlr.
Qed.

Lemma key_indices_present face :
  (exists pts, mapM (PoseDetector.face_point face) PoseDetector.keyIndices = Normal pts)
  <-> (455 <= List.length face)%nat.
Proof.
  rewrite mapM_normal_iff.
  assert (Hp : forall idx, (exists p, PoseDetector.face_point face idx = Normal p)
                           <-> (idx < List.length face)%nat).
  { intros idx. unfold PoseDetector.face_point. rewrite <- nth_error_Some.
    destruct (nth_error face idx) as [lm |]; split.
    - intros _. discriminate.
    - intros _. eexists. reflexivity.
    - intros [p H]. discriminate H.
    - intros H. contradiction H. reflexivity. }
  unfold PoseDetector.keyIndices. split.
  - intros H. inversion H as [| a1 l1 _ H1]; subst.
    inversion H1 as [| a2 l2 _ H2]; subst.
    inversion H2 as [| a3 l3 _ H3]; subst.
    inversion H3 as [| a4 l4 H454 _]; subst.
    apply Hp in H454. lia.
  - intros H. repeat constructor; apply Hp; lia.
Qed.

Lemma face_part_normal_iff faceData :
  (exists f,
      match faceData with
      | Some results =>
          match PoseDetector.multiFaceLandmarks results with
          | Some faces =>
              match nth_error faces 0 with
              | Some faceLandmarks =>
                  (pts <- mapM (PoseDetector.face_point faceLandmarks)
                            PoseDetector.keyIndices ;;
                   Normal (Some pts))%js
              | None => Normal None
              end
          | None => Normal None
          end
      | None => Normal None
      end = Normal f)
  <-> face_complete faceData = true.
Proof.
  unfold face_complete.
  destruct faceData as [results |]; [| split; [reflexivity | eexists; reflexivity]].
  destruct (PoseDetector.multiFaceLandmarks results) as [faces |];
    [| split; [reflexivity | eexists; reflexivity]].
  destruct (nth_error faces 0) as [face |];
    [| split; [reflexivity | eexists; reflexivity]].
  rewrite Nat.leb_le, <- key_indices_present.
  destruct (mapM (PoseDetector.face_point face) PoseDetector.keyIndices) as [pts | e];
    cbn [bind]; split.
  - intros _. eexists; reflexivity.
  - intros _. eexists; reflexivity.
  - intros [f H]. discriminate H.
  - intros [pts H]. discriminate H.
Qed.

Lemma compose_normal_iff now d :
  (exists r, PoseDetector.compose now d = Normal r)
  <-> hands_labelled (PoseDetector.currentHandsData d) = true
      /\ face_complete (PoseDetector.currentFaceData d) = true.
Proof.
  rewrite <- hands_part_normal_iff, <- face_part_normal_iff.
  unfold PoseDetector.compose.
  match goal with
  | |- context [bind ?hands (fun h => bind ?face _)] =>
      destruct hands as [h | e]; cbn [bind];
      [destruct face as [f | e]; cbn [bind] |]
  end.
  - split; [intros _; split; eexists; reflexivity | intros _; eexists; reflexivity].
  - split; [intros [r H]; discriminate H | intros [_ [f H]]; discriminate H].
  - split; [intros [r H]; discriminate H | intros [[h H] _]; discriminate H].
Qed.

(** X1.  A pose notification pushes a record exactly when every detected
    hand has a handedness entry and the first detected face, if any, has
    at least 455 landmarks; the record then carries the clock reading and
    the buffer length.  Otherwise the notification throws: the result is
    stored, but nothing is pushed or released and the buffer is as
    before. *)
Theorem pose_notification_pushes_iff
    (cfg : Config) (results : PoseDetector.PoseResults) (now : Z) (d : PoseDetector.t) :
  let '(d', effects, c) := PoseDetector.onPoseResults cfg results now d in
  PoseDetector.currentPoseData d' = Some results
  /\ if hands_labelled (PoseDetector.currentHandsData d)
        && face_complete (PoseDetector.currentFaceData d)
     then c = Normal tt
          /\ exists r, PoseDetector.pushes effects = [r]
                       /\ PoseDetector.timestamp r = now
                       /\ PoseDetector.frame_id r = List.length (PoseDetector.frameBuffer d)
     else (exists e, c = Throw e)
          /\ effects = []
          /\ PoseDetector.frameBuffer d' = PoseDetector.frameBuffer d.
Proof.
  unfold PoseDetector.onPoseResults.
  set (d1 := PoseDetector.set_currentPoseData results d).
  change (PoseDetector.currentHandsData d) with (PoseDetector.currentHandsData d1).
  change (PoseDetector.currentFaceData d) with (PoseDetector.currentFaceData d1).
  change (PoseDetector.frameBuffer d) with (PoseDetector.frameBuffer d1).
  destruct (hands_labelled (PoseDetector.currentHandsData d1)) eqn:Hh.
  - apply drawHands_normal_iff in Hh as Hdraw. rewrite Hdraw.
    unfold PoseDetector.extractSkeletalData.
    destruct (face_complete (PoseDetector.currentFaceData d1)) eqn:Hf; cbn [andb].
    + destruct (proj2 (compose_normal_iff now d1) (conj Hh Hf)) as [r Hr].
      rewrite Hr. cbn [bind].
      destruct (compose_frame_id _ _ _ Hr) as [Hid Hts].
      destruct (FRAME_BATCH_SIZE cfg <=? _)%nat.
      * split; [reflexivity |]. split; [reflexivity |].
        exists r. destruct (PoseDetector.onFrameCallback d1); cbn; auto.
      * split; [reflexivity |]. split; [reflexivity |]. exists r. cbn. auto.
    + destruct (PoseDetector.compose now d1) as [r | e] eqn:Hc; cbn [bind].
      * assert (Hex : exists r, PoseDetector.compose now d1 = Normal r)
          by (exists r; exact Hc).
        apply compose_normal_iff in Hex. destruct Hex as [_ Hex].
        rewrite Hex in Hf. discriminate Hf.
      * split; [reflexivity |]. split; [exists e; reflexivity |]. split; reflexivity.
  - cbn [andb].
    destruct (PoseDetector.drawHands (PoseDetector.currentHandsData d1)) as [[] | e] eqn:Hd.
    + apply drawHands_normal_iff in Hd. rewrite Hd in Hh. discriminate Hh.
    + split; [reflexivity |]. split; [exists e; reflexivity |]. split; reflexivity.
Qed.

(* ================================================================= *)
(** ** What the face and hand fields hold *)

(** X2.  When a record is composed while a face result with at least one
    face is current, [face_landmarks] holds exactly six points: the
    landmarks of the first face at the indices 10, 152, 234, 454, 70 and
    300, in this order, each quantized; further faces are ignored.  With
    an empty list of faces the field is [null]. *)
Theorem face_landmarks_are_the_key_points
    (now : Z) (d : PoseDetector.t) (r : PoseDetector.SkeletalData)
    (results : PoseDetector.FaceResults) (faces : list (list Landmark.t)) :
  PoseDetector.compose now d = Normal r ->
  PoseDetector.currentFaceData d = Some results ->
  PoseDetector.multiFaceLandmarks results = Some faces ->
  match faces with
  | [] => PoseDetector.face_landmarks r = None
  | face :: _ =>
      exists lms,
        Forall2 (fun idx lm => nth_error face idx = Some lm) [10; 152; 234; 454; 70; 300]%nat lms
        /\ List.length lms = 6%nat
        /\ PoseDetector.face_landmarks r = Some (map PoseDetector.quantize lms)
  end.
Proof.
  unfold PoseDetector.compose. intros H Hcur Hfaces. rewrite Hcur, Hfaces in H.
  match type of H with
  | bind ?hands _ = _ => destruct hands as [h | e]
  end; cbn [bind] in H; [| discriminate H].
  destruct faces as [| face others]; cbn [nth_error bind] in H.
  - injection H as <-. reflexivity.
  - destruct (mapM (PoseDetector.face_point face) PoseDetector.keyIndices)
      as [pts | e] eqn:Hm; cbn [bind] in H; [| discriminate H].
    injection H as <-. cbn [PoseDetector.face_landmarks].
    destruct (mapM_face_point_selects _ _ _ Hm) as [lms [Hsel ->]].
    exists lms. split; [exact Hsel |]. split; [| reflexivity].
    apply Forall2_length in Hsel. symmetry. exact Hsel.
Qed.

Lemma last_cons {A} (a : A) (l : list A) (d : A) : last (a :: l) d = last l a.
Proof.
  revert a d. induction l as [| b l IH]; intros a d; [reflexivity |].
  change (last (a :: b :: l) d) with (last (b :: l) d).
  rewrite !IH. reflexivity.
Qed.

Lemma last_map_some {A B C} (g : A -> B) (f : B -> C) (l : list A) :
  last (map (fun a => Some (f (g a))) l) None
  = option_map f (last (map (fun a => Some (g a)) l) None).
Proof.
  destruct l as [| a l]; [reflexivity |]. cbn [map]. rewrite !last_cons.
  revert a. induction l as [| b l IH]; intros a; [reflexivity |].
  cbn [map]. rewrite !last_cons. apply IH.
Qed.

Lemma handedness_label_skipn labels index label :
  PoseDetector.handedness_label labels index = Normal label ->
  skipn index labels = label :: skipn (S index) labels.
Proof.
  unfold PoseDetector.handedness_label.
  revert labels. induction index as [| i IH]; intros labels H.
  - destruct labels as [| l ls]; cbn in H; [discriminate H |].
    injection H as <-. reflexivity.
  - destruct labels as [| l ls]; cbn [nth_error] in H; [discriminate H |].
    cbn [skipn]. apply IH. exact H.
Qed.

(** The hand loop files each hand under its label; a later hand replaces
    an earlier one with the same side. *)
Lemma forEach_hand_files hands : forall index labels left right l r,
  PoseDetector.forEach_hand hands index labels left right = Normal (l, r) ->
  let stored (side : bool) :=
    map (fun p => Some (map PoseDetector.quantize (fst p)))
      (filter (fun p => Bool.eqb (String.eqb (snd p) "Left"%string) side)
         (combine hands (skipn index labels))) in
  l = last (stored true) left /\ r = last (stored false) right.
Proof.
  induction hands as [| landmarks rest IH]; intros index labels left right l r H.
  - cbn in H. injection H as <- <-. split; reflexivity.
  - cbn [PoseDetector.forEach_hand] in H.
    destruct (PoseDetector.handedness_label labels index) as [label | e] eqn:Hl;
      cbn [bind] in H; [| discriminate H].
    rewrite (handedness_label_skipn _ _ _ Hl). cbn [combine filter snd fst].
    destruct (String.eqb label "Left"%string); cbn [Bool.eqb];
      apply IH in H; cbn zeta in H; destruct H as [Hleft Hright];
      cbn [map]; rewrite ?last_cons; split; assumption.
Qed.

(** X3.  A record composed while a hands result is current holds in
    [left_hand] the quantized landmarks of the last detected hand whose
    handedness label is exactly ["Left"], and in [right_hand] those of the
    last hand with any other label; a side without such a hand is
    [null]. *)
Theorem hands_are_filed_by_label
    (now : Z) (d : PoseDetector.t) (r : PoseDetector.SkeletalData)
    (results : PoseDetector.HandsResults) (hands : list (list Landmark.t)) :
  PoseDetector.compose now d = Normal r ->
  PoseDetector.currentHandsData d = Some results ->
  PoseDetector.multiHandLandmarks results = Some hands ->
  PoseDetector.left_hand r
  = option_map (map PoseDetector.quantize)
      (filed true hands (PoseDetector.multiHandedness results))
  /\ PoseDetector.right_hand r
     = option_map (map PoseDetector.quantize)
         (filed false hands (PoseDetector.multiHandedness results)).
Proof.
  unfold PoseDetector.compose. intros H Hcur Hhands. rewrite Hcur, Hhands in H.
  destruct (PoseDetector.forEach_hand hands 0 (PoseDetector.multiHandedness results)
              None None) as [[l rt] | e] eqn:Hloop; cbn [bind] in H; [| discriminate H].
  match type of H with
  | bind ?face _ = _ => destruct face as [f | e]
  end; cbn [bind] in H; [| discriminate H].
  injection H as <-. cbn [PoseDetector.left_hand PoseDetector.right_hand fst snd].
  apply forEach_hand_files in Hloop. cbn zeta in Hloop. cbn [skipn] in Hloop.
  destruct Hloop as [-> ->]. unfold filed.
  split; apply last_map_some.
Qed.

(* ================================================================= *)
(** ** The buffer over a run, with or without a callback *)

(** What one notification does to the buffer, whether or not a callback
    is registered. *)
Lemma handle_shape cfg ev d d' effects :
  PoseDetector.handle cfg ev d = (d', effects) ->
  PoseDetector.onFrameCallback d' = PoseDetector.onFrameCallback d /\
  ((effects = [] /\ PoseDetector.frameBuffer d' = PoseDetector.frameBuffer d)
   \/ exists r,
        PoseDetector.frame_id r = List.length (PoseDetector.frameBuffer d) /\
        pose_time ev = [PoseDetector.timestamp r] /\
        let buffer := PoseDetector.frameBuffer d ++ [r] in
        ((effects = [PoseDetector.Push r]
          /\ PoseDetector.frameBuffer d' = buffer
          /\ (List.length buffer < FRAME_BATCH_SIZE cfg)%nat)
         \/ (effects = PoseDetector.Push r ::
                         (if PoseDetector.onFrameCallback d
                          then [PoseDetector.Callback buffer] else [])
             /\ PoseDetector.frameBuffer d' = []
             /\ (FRAME_BATCH_SIZE cfg <= List.length buffer)%nat))).
Proof.
  intros H. destruct ev as [hr | pr now | fr]; cbn [PoseDetector.handle] in H.
  - injection H as <- <-. split; [reflexivity | left; split; reflexivity].
  - unfold PoseDetector.onPoseResults in H.
    set (d1 := PoseDetector.set_currentPoseData pr d) in *.
    destruct (PoseDetector.drawHands (PoseDetector.currentHandsData d1)) as [u | e].
    2: { injection H as <- <-. split; [reflexivity | left; split; reflexivity]. }
    unfold PoseDetector.extractSkeletalData in H.
    destruct (PoseDetector.compose now d1) as [r | e] eqn:Hc; cbn [bind] in H.
    2: { injection H as <- <-. split; [reflexivity | left; split; reflexivity]. }
    apply compose_frame_id in Hc. destruct Hc as [Hid Hts].
    change (PoseDetector.frameBuffer d1) with (PoseDetector.frameBuffer d) in *.
    change (PoseDetector.onFrameCallback d1) with (PoseDetector.onFrameCallback d) in *.
    destruct (FRAME_BATCH_SIZE cfg <=? List.length (PoseDetector.frameBuffer d ++ [r]))%nat
      eqn:Hfull; injection H as <- <-.
    + apply Nat.leb_le in Hfull. split; [reflexivity |].
      right. exists r. split; [exact Hid |]. split; [cbn; rewrite Hts; reflexivity |].
      right. repeat split. exact Hfull.
    + apply Nat.leb_gt in Hfull. split; [reflexivity |].
      right. exists r. split; [exact Hid |]. split; [cbn; rewrite Hts; reflexivity |].
      left. repeat split. exact Hfull.
  - injection H as <- <-. split; [reflexivity | left; split; reflexivity].
Qed.

(** X4.  Whether or not a callback is registered, the buffer never reaches
    the batch size: after a run that starts with fewer than [B] buffered
    records and pushes [N] more, it holds [(n0 + N) mod B] records. *)
Theorem buffer_length_is_count_mod_batch_size
    (cfg : Config) (evs : list PoseDetector.event)
    (d d' : PoseDetector.t) (effects : list PoseDetector.effect) :
  (List.length (PoseDetector.frameBuffer d) < FRAME_BATCH_SIZE cfg)%nat ->
  PoseDetector.run cfg evs d = (d', effects) ->
  List.length (PoseDetector.frameBuffer d')
  = ((List.length (PoseDetector.frameBuffer d)
      + List.length (PoseDetector.pushes effects)) mod FRAME_BATCH_SIZE cfg)%nat.
Proof.
  revert d d' effects.
  induction evs as [| ev evs IH]; intros d d' effects Hlen Hrun.
  - cbn in Hrun. injection Hrun as <- <-. cbn [PoseDetector.pushes List.length].
    rewrite Nat.add_0_r, Nat.mod_small by exact Hlen. reflexivity.
  - cbn [PoseDetector.run] in Hrun.
    destruct (PoseDetector.handle cfg ev d) as [d1 e1] eqn:Hh.
    destruct (PoseDetector.run cfg evs d1) as [d2 e2] eqn:Hr.
    injection Hrun as <- <-. rewrite pushes_app, length_app.
    destruct (handle_shape _ _ _ _ _ Hh) as [_ [[-> Hbuf] | [r [_ [_ Hcase]]]]].
    + rewrite <- Hbuf in *. cbn [PoseDetector.pushes List.length].
      rewrite (IH d1 d2 e2 Hlen Hr). reflexivity.
    + cbn zeta in Hcase. rewrite length_app in Hcase. cbn [List.length] in Hcase.
      destruct Hcase as [[-> [Hbuf Hshort]] | [-> [Hbuf Hfull]]].
      * assert (Hlen1 : (List.length (PoseDetector.frameBuffer d1) < FRAME_BATCH_SIZE cfg)%nat)
          by (rewrite Hbuf, length_app; exact Hshort).
        rewrite (IH d1 d2 e2 Hlen1 Hr), Hbuf, length_app.
        cbn [PoseDetector.pushes List.length]. f_equal. lia.
      * assert (Hlen1 : (List.length (PoseDetector.frameBuffer d1) < FRAME_BATCH_SIZE cfg)%nat)
          by (rewrite Hbuf; cbn; lia).
        rewrite (IH d1 d2 e2 Hlen1 Hr), Hbuf. cbn [List.length].
        assert (HB : (List.length (PoseDetector.frameBuffer d) + 1 = FRAME_BATCH_SIZE cfg)%nat)
          by lia.
        replace (List.length (PoseDetector.pushes
                   (PoseDetector.Push r ::
                      (if PoseDetector.onFrameCallback d
                       then [PoseDetector.Callback (PoseDetector.frameBuffer d ++ [r])]
                       else []))))
          with 1%nat by (destruct (PoseDetector.onFrameCallback d); reflexivity).
        replace (List.length (PoseDetector.frameBuffer d)
                 + (1 + List.length (PoseDetector.pushes e2)))%nat
          with (List.length (PoseDetector.pushes e2) + 1 * FRAME_BATCH_SIZE cfg)%nat by lia.
        rewrite Nat.Div0.mod_add. reflexivity.
Qed.

(** X5.  A detector without a registered callback never hands a batch to
    anyone: each time the buffer fills it is emptied and its records are
    dropped. *)
Theorem no_callback_no_batches
    (cfg : Config) (evs : list PoseDetector.event)
    (d d' : PoseDetector.t) (effects : list PoseDetector.effect) :
  PoseDetector.onFrameCallback d = false ->
  PoseDetector.run cfg evs d = (d', effects) ->
  PoseDetector.callbacks effects = []
  /\ PoseDetector.onFrameCallback d' = false.
Proof.
  revert d d' effects.
  induction evs as [| ev evs IH]; intros d d' effects Hcb Hrun.
  - cbn in Hrun. injection Hrun as <- <-. split; [reflexivity | exact Hcb].
  - cbn [PoseDetector.run] in Hrun.
    destruct (PoseDetector.handle cfg ev d) as [d1 e1] eqn:Hh.
    destruct (PoseDetector.run cfg evs d1) as [d2 e2] eqn:Hr.
    injection Hrun as <- <-. rewrite callbacks_app.
    destruct (handle_shape _ _ _ _ _ Hh) as [Hcb1 Hcase].
    rewrite Hcb in Hcb1.
    destruct (IH d1 d2 e2 Hcb1 Hr) as [-> Hcb2].
    split; [| exact Hcb2]. rewrite app_nil_r.
    destruct Hcase as [[-> _] | [r [_ [_ [[-> _] | [-> _]]]]]];
      try reflexivity.
    rewrite Hcb. reflexivity.
Qed.

(* ================================================================= *)
(** ** The records and the batches of a run *)

Lemma selected_Forall2 face : forall idxs lms,
  Forall2 (fun idx lm => nth_error face idx = Some lm) idxs lms ->
  selected face idxs = lms.
Proof.
  induction 1 as [| idx lm idxs lms Hlm _ IH]; [reflexivity |].
  unfold selected in *. cbn [flat_map]. rewrite Hlm, IH. reflexivity.
Qed.

(** The record [compose] gives when the current hands and face results
    are well formed. *)
Lemma compose_record now d results :
  PoseDetector.currentPoseData d = Some results ->
  hands_labelled (PoseDetector.currentHandsData d) = true ->
  face_complete (PoseDetector.currentFaceData d) = true ->
  PoseDetector.compose now d
  = Normal (record_of {| arrival_pose := results; arrival_time := now;
                         arrival_hands := PoseDetector.currentHandsData d;
                         arrival_face := PoseDetector.currentFaceData d |}
              (List.length (PoseDetector.frameBuffer d))).
Proof.
  intros Hpose Hh Hf.
  destruct (proj2 (compose_normal_iff now d) (conj Hh Hf)) as [r Hr].
  rewrite Hr. f_equal.
  unfold PoseDetector.compose in Hr. rewrite Hpose in Hr.
  unfold record_of, hand_of, key_points_of. cbn [arrival_pose arrival_time arrival_hands arrival_face].
  match type of Hr with
  | bind ?hands _ = _ => destruct hands as [[l rt] | e] eqn:Hhands
  end; cbn [bind] in Hr; [| discriminate Hr].
  match type of Hr with
  | bind ?face _ = _ => destruct face as [f | e] eqn:Hface
  end; cbn [bind] in Hr; [| discriminate Hr].
  injection Hr as <-. cbn [fst snd].
  assert (Hlr : l = option_map (map PoseDetector.quantize)
                      match PoseDetector.currentHandsData d with
                      | Some results0 =>
                          match PoseDetector.multiHandLandmarks results0 with
                          | Some hs => filed true hs (PoseDetector.multiHandedness results0)
                          | None => None
                          end
                      | None => None
                      end
                /\ rt = option_map (map PoseDetector.quantize)
                         match PoseDetector.currentHandsData d with
                         | Some results0 =>
                             match PoseDetector.multiHandLandmarks results0 with
                             | Some hs => filed false hs (PoseDetector.multiHandedness results0)
                             | None => None
                             end
                         | None => None
                         end).
  { destruct (PoseDetector.currentHandsData d) as [hr |];
      [| injection Hhands as <- <-; split; reflexivity].
    destruct (PoseDetector.multiHandLandmarks hr) as [hs |];
      [| injection Hhands as <- <-; split; reflexivity].
    apply forEach_hand_files in Hhands. cbn zeta in Hhands. cbn [skipn] in Hhands.
    destruct Hhands as [-> ->]. unfold filed. split; apply last_map_some. }
  destruct Hlr as [<- <-].
  assert (Hfp : f = option_map (map PoseDetector.quantize)
                      match PoseDetector.currentFaceData d with
                      | Some results0 =>
                          match PoseDetector.multiFaceLandmarks results0 with
                          | Some (first :: _) =>
                              Some (selected first PoseDetector.keyIndices)
                          | _ => None
                          end
                      | None => None
                      end).
  { destruct (PoseDetector.currentFaceData d) as [fr |];
      [| injection Hface as <-; reflexivity].
    destruct (PoseDetector.multiFaceLandmarks fr) as [[| first others] |];
      cbn [nth_error] in Hface;
      [injection Hface as <-; reflexivity | | injection Hface as <-; reflexivity].
    destruct (mapM (PoseDetector.face_point first) PoseDetector.keyIndices)
      as [pts | e] eqn:Hm; cbn [bind] in Hface; [| discriminate Hface].
    injection Hface as <-.
    destruct (mapM_face_point_selects _ _ _ Hm) as [lms [Hsel ->]].
    rewrite (selected_Forall2 _ _ _ Hsel). reflexivity. }
  rewrite <- Hfp. reflexivity.
Qed.

(** One notification: the results it leaves current and the record it
    pushes, if any. *)
Lemma handle_arrival cfg ev d d' effects :
  PoseDetector.handle cfg ev d = (d', effects) ->
  PoseDetector.currentHandsData d' = hands_after (PoseDetector.currentHandsData d) ev
  /\ PoseDetector.currentFaceData d' = face_after (PoseDetector.currentFaceData d) ev
  /\ PoseDetector.pushes effects
     = map (fun a => record_of a (List.length (PoseDetector.frameBuffer d)))
         (arrival_of (PoseDetector.currentHandsData d) (PoseDetector.currentFaceData d) ev).
Proof.
  intros H. destruct ev as [hr | pr now | fr];
    cbn [PoseDetector.handle hands_after face_after arrival_of] in *.
  - injection H as <- <-. repeat split.
  - unfold PoseDetector.onPoseResults in H.
    set (d1 := PoseDetector.set_currentPoseData pr d) in *.
    change (PoseDetector.currentHandsData d) with (PoseDetector.currentHandsData d1).
    change (PoseDetector.currentFaceData d) with (PoseDetector.currentFaceData d1).
    change (PoseDetector.frameBuffer d) with (PoseDetector.frameBuffer d1).
    destruct (hands_labelled (PoseDetector.currentHandsData d1)) eqn:Hh; cbn [andb].
    + apply drawHands_normal_iff in Hh as Hdraw. rewrite Hdraw in H.
      unfold PoseDetector.extractSkeletalData in H.
      destruct (face_complete (PoseDetector.currentFaceData d1)) eqn:Hf.
      * rewrite (compose_record now d1 pr eq_refl Hh Hf) in H. cbn [bind] in H.
        destruct (FRAME_BATCH_SIZE cfg <=? _)%nat; injection H as <- <-.
        -- split; [reflexivity |]. split; [reflexivity |].
           destruct (PoseDetector.onFrameCallback d); reflexivity.
        -- repeat split.
      * destruct (PoseDetector.compose now d1) as [r | e] eqn:Hc; cbn [bind] in H.
        -- assert (Hex : exists r, PoseDetector.compose now d1 = Normal r)
             by (exists r; exact Hc).
           apply compose_normal_iff in Hex. destruct Hex as [_ Hex].
           rewrite Hex in Hf. discriminate Hf.
        -- injection H as <- <-. repeat split.
    + destruct (PoseDetector.drawHands (PoseDetector.currentHandsData d1)) as [[] | e] eqn:Hd.
      * apply drawHands_normal_iff in Hd. rewrite Hd in Hh. discriminate Hh.
      * injection H as <- <-. repeat split.
  - injection H as <- <-. repeat split.
Qed.

Lemma succ_mod (k B : nat) :
  (0 < B)%nat ->
  ((k mod B + 1 < B -> S k mod B = k mod B + 1)
   /\ (B <= k mod B + 1 -> S k mod B = 0))%nat.
Proof.
  intros HB. pose proof (Nat.div_mod_eq k B) as Hk.
  pose proof (Nat.mod_upper_bound k B ltac:(lia)) as Hlt.
  split; intros H; symmetry.
  - apply (Nat.mod_unique (S k) B (k / B)); lia.
  - apply (Nat.mod_unique (S k) B (S (k / B))); [lia |].
    rewrite Nat.mul_succ_r. lia.
Qed.

(** The records a run pushes are the records of its arrivals, in order,
    each at the position its number gives. *)
Lemma run_pushes_arrivals cfg : forall evs d d' effects k,
  (0 < FRAME_BATCH_SIZE cfg)%nat ->
  List.length (PoseDetector.frameBuffer d) = (k mod FRAME_BATCH_SIZE cfg)%nat ->
  PoseDetector.run cfg evs d = (d', effects) ->
  PoseDetector.pushes effects
  = records (FRAME_BATCH_SIZE cfg) k
      (arrivals (PoseDetector.currentHandsData d) (PoseDetector.currentFaceData d) evs).
Proof.
  induction evs as [| ev evs IH]; intros d d' effects k HB Hlen Hrun.
  - cbn in Hrun. injection Hrun as <- <-. reflexivity.
  - cbn [PoseDetector.run arrivals] in *.
    destruct (PoseDetector.handle cfg ev d) as [d1 e1] eqn:Hh.
    destruct (PoseDetector.run cfg evs d1) as [d2 e2] eqn:Hr.
    injection Hrun as <- <-. rewrite pushes_app.
    destruct (handle_arrival _ _ _ _ _ Hh) as [Hhands [Hface Hpush]].
    rewrite <- Hhands, <- Hface, Hpush.
    destruct (succ_mod k _ HB) as [Hnext Hwrap].
    destruct (handle_shape _ _ _ _ _ Hh) as [_ Hshape].
    destruct (arrival_of (PoseDetector.currentHandsData d)
                (PoseDetector.currentFaceData d) ev) as [| a [| b rest]] eqn:Ha.
    + cbn [map app]. apply (IH d1 d2 e2 k HB); [| exact Hr].
      destruct Hshape as [[_ ->] | [r [_ [_ Hcase]]]]; [exact Hlen |].
      cbn [map] in Hpush.
      destruct Hcase as [[-> _] | [-> _]]; [discriminate Hpush |].
      destruct (PoseDetector.onFrameCallback d); discriminate Hpush.
    + cbn [map app records]. rewrite Hlen. f_equal.
      apply (IH d1 d2 e2 (S k) HB); [| exact Hr].
      destruct Hshape as [[-> _] | [r [_ [_ Hcase]]]]; [discriminate Hpush |].
      cbn zeta in Hcase. rewrite length_app in Hcase. cbn [List.length] in Hcase.
      rewrite Hlen in Hcase.
      destruct Hcase as [[_ [-> Hshort]] | [_ [-> Hfull]]].
      * rewrite length_app, Hlen. cbn [List.length]. symmetry. apply Hnext. exact Hshort.
      * cbn [List.length]. symmetry. apply Hwrap. exact Hfull.
    + destruct ev as [hr | pr now | fr]; cbn [arrival_of] in Ha; try discriminate Ha.
      destruct (hands_labelled _ && face_complete _); discriminate Ha.
Qed.

Lemma length_records B : forall arrived k,
  List.length (records B k arrived) = List.length arrived.
Proof.
  induction arrived as [| a rest IH]; intros k; cbn [records List.length];
    [reflexivity | rewrite IH; reflexivity].
Qed.

(** C1.  From an empty buffer and with a batch size [B >= 1], let [N] be
    the number of arrivals of a run: the pose notifications that find
    well-formed hands and face results.  Each of them pushes its record,
    in order of arrival; the registered callback is called with exactly
    [N / B] batches, each of exactly [B] records; the batches one after the
    other are the records of the first [B * (N / B)] arrivals in order of
    arrival; the [frame_id] of a record is its position in its batch,
    counted from 0; and the records of the last [N mod B] arrivals stay in
    the buffer. *)
Theorem full_batches_in_arrival_order
    (cfg : Config) (evs : list PoseDetector.event)
    (d d' : PoseDetector.t) (effects : list PoseDetector.effect) :
  (0 < FRAME_BATCH_SIZE cfg)%nat ->
  PoseDetector.frameBuffer d = [] ->
  PoseDetector.onFrameCallback d = true ->
  PoseDetector.run cfg evs d = (d', effects) ->
  let B := FRAME_BATCH_SIZE cfg in
  let arrived :=
    arrivals (PoseDetector.currentHandsData d) (PoseDetector.currentFaceData d) evs in
  let N := List.length arrived in
  let pushed := records B 0 arrived in
  let batches := PoseDetector.callbacks effects in
  PoseDetector.pushes effects = pushed
  /\ List.length batches = (N / B)%nat
  /\ Forall (fun b => List.length b = B) batches
  /\ List.concat batches = firstn (B * (N / B)) pushed
  /\ Forall numbered batches
  /\ PoseDetector.frameBuffer d' = skipn (B * (N / B)) pushed.
Proof.
  intros HB Hempty Hcb Hrun B arrived N pushed batches.
  assert (Hpushed : PoseDetector.pushes effects = pushed).
  { apply (run_pushes_arrivals cfg evs d d' effects 0 HB); [| exact Hrun].
    rewrite Hempty, Nat.Div0.mod_0_l. reflexivity. }
  split; [exact Hpushed |].
  assert (Hlen0 : (List.length (PoseDetector.frameBuffer d) < FRAME_BATCH_SIZE cfg)%nat)
    by (rewrite Hempty; exact HB).
  assert (Hnum0 : numbered (PoseDetector.frameBuffer d))
    by (rewrite Hempty; exact numbered_nil).
  destruct (run_accumulates cfg evs d d' effects HB Hcb Hlen0 Hnum0 Hrun)
    as [Heq [Hall [Hshort Hnum]]].
  rewrite Hempty, Hpushed in Heq. cbn [app] in Heq.
  fold batches B in Heq, Hall, Hshort.
  assert (Hfull : Forall (fun b => List.length b = B) batches).
  { eapply Forall_impl; [| exact Hall]. intros b [Hb _]. exact Hb. }
  assert (Hnumb : Forall numbered batches).
  { eapply Forall_impl; [| exact Hall]. intros b [_ Hb]. exact Hb. }
  pose proof (length_concat_full B batches Hfull) as Hcat.
  assert (HN : N = (B * List.length batches + List.length (PoseDetector.frameBuffer d'))%nat).
  { unfold N. rewrite <- (length_records B arrived 0). fold pushed.
    rewrite Heq, length_app, Hcat. reflexivity. }
  assert (Hq : List.length batches = (N / B)%nat).
  { apply (Nat.div_unique N B _ (List.length (PoseDetector.frameBuffer d')));
      [exact Hshort | exact HN]. }
  rewrite <- Hq, <- Hcat.
  repeat split; try assumption.
  - rewrite Heq, firstn_app, Nat.sub_diag, firstn_all. cbn [firstn].
    rewrite app_nil_r. reflexivity.
  - rewrite Heq, skipn_app, Nat.sub_diag, skipn_all. reflexivity.
Qed.

Lemma full_batches_in_arrival_order_witness :
  let cfg := config_of_size 2 in
  let d := PoseDetector.set_onFrameCallback true PoseDetector.new in
  let evs := [pose_frame 1; PoseDetector.HandsResultsEv two_hands; pose_frame 2;
              PoseDetector.FaceResultsEv short_face; pose_frame 3;
              PoseDetector.FaceResultsEv one_face; pose_frame 4; pose_frame 5] in
  let pushed := records 2 0 (arrivals None None evs) in
  List.length (arrivals None None evs) = 4%nat
  /\ PoseDetector.pushes (snd (PoseDetector.run cfg evs d)) = pushed
  /\ List.length (PoseDetector.callbacks (snd (PoseDetector.run cfg evs d))) = 2%nat
  /\ Forall (fun b => List.length b = 2%nat)
            (PoseDetector.callbacks (snd (PoseDetector.run cfg evs d)))
  /\ List.concat (PoseDetector.callbacks (snd (PoseDetector.run cfg evs d)))
     = firstn 4 pushed
  /\ Forall numbered (PoseDetector.callbacks (snd (PoseDetector.run cfg evs d)))
  /\ PoseDetector.frameBuffer (fst (PoseDetector.run cfg evs d)) = skipn 4 pushed.
Proof.
  intros cfg d evs pushed.
  assert (HB : (0 < FRAME_BATCH_SIZE cfg)%nat) by (cbn; lia).
  split; [reflexivity |].
  exact (full_batches_in_arrival_order cfg evs d
           (fst (PoseDetector.run cfg evs d)) (snd (PoseDetector.run cfg evs d))
           HB eq_refl eq_refl (surjective_pairing _)).
Defined.

(* ================================================================= *)
(** ** Timestamps *)

Lemma subseq_nil_l {A} (l : list A) : subseq [] l.
Proof. induction l; constructor; assumption. Qed.







(* ================================================================= *)
(** ** The two requests *)

(** X7.  [translate] resolves exactly when a response with a status from
    200 to 299 arrives and its body parses, and then to the parsed body.
    Otherwise it rejects: with the error of [fetch] itself, or with
    "API error: " followed by the status for any other status (the body is
    not looked at), or with the error of parsing the body. *)
Theorem translate_outcomes (o : APIClient.FetchOutcome) :
  match APIClient.translate o with
  | Normal result =>
      exists status,
        (200 <= status <= 299)%nat
        /\ o = APIClient.Response status (Normal result)
  | Throw error =>
      o = APIClient.Rejected error
      \/ (exists status body,
             o = APIClient.Response status body
             /\ ~ (200 <= status <= 299)%nat
             /\ message error
                = ("API error: " ++ APIClient.string_of_status status)%string)
      \/ (exists status,
             (200 <= status <= 299)%nat
             /\ o = APIClient.Response status (Throw error))
  end.
Proof.
  destruct o as [e | status body]; unfold APIClient.translate.
  - cbn. left. reflexivity.
  - unfold APIClient.ok.
    destruct (Nat.leb_spec 200 status) as [Hlo | Hlo];
      destruct (Nat.leb_spec status 299) as [Hhi | Hhi]; cbn [andb negb].
    + destruct body as [result | e]; cbn.
      * exists status. split; [lia | reflexivity].
      * right. right. exists status. split; [lia | reflexivity].
    + cbn. right. left. exists status, body. repeat split. lia.
    + cbn. right. left. exists status, body. repeat split. lia.
    + cbn. right. left. exists status, body. repeat split. lia.
Qed.

(** X8.  After the probe the status line reads "Ready to start" exactly
    when a response arrived whose body parsed to an object with [status]
    ["ok"]; the HTTP status of the response plays no part, so a 500 with
    that body counts as ready. *)
Theorem probe_ready_iff (page0 : App.Elements) (o : APIClient.FetchOutcome) :
  App.status_textContent (App.elements (App.checkAPIHealth o (App.new page0)))
  = "Ready to start"%string
  <-> exists status body,
        o = APIClient.Response status (Normal body) /\ status_ok_body body.
Proof.
  unfold App.checkAPIHealth.
  destruct o as [e | status [body | e]]; cbn [APIClient.healthCheck try_catch].
  - cbn. split; [discriminate | intros [s [b [H _]]]; discriminate H].
  - destruct (App.healthy body) eqn:Hb; cbn; split.
    + intros _. exists status, body. split; [reflexivity | apply healthy_iff; exact Hb].
    + reflexivity.
    + discriminate.
    + intros [s [b [[= <- <-] Hok]]]. apply healthy_iff in Hok.
      rewrite Hok in Hb. discriminate Hb.
  - cbn. split; [discriminate | intros [s [b [H _]]]; discriminate H].
Qed.

(* ================================================================= *)
(** ** What an answer does to the page *)

Lemma join_strings Number_toString (sep : string) (ws : list string) :
  join Number_toString sep (map JStr ws) = String.concat sep ws.
Proof.
  unfold join. induction ws as [| w ws IH]; [reflexivity |].
  destruct ws as [| w' ws']; [reflexivity |].
  cbn [map join_with String.concat] in *. rewrite IH. reflexivity.
Qed.

(** X9.  A 2xx answer whose body is an object with a string [translation]
    and an array of strings [words] is shown whether or not the app is
    running: the translation text becomes the translation, the words text
    becomes "Recognized: " followed by the words separated by ", ", and
    the status becomes active; [isRunning] and the detector are not
    touched. *)
Theorem answer_is_shown_whether_running_or_not
    (Number_toString : number -> string) (a : App.t) (status : nat)
    (props : list (string * json)) (translation : string) (words : list string) :
  APIClient.ok status = true ->
  lookup "translation" props = Some (JStr translation) ->
  lookup "words" props = Some (JArr (map JStr words)) ->
  let a' := App.onFrameBatch_resume Number_toString
              (APIClient.Response status (Normal (JObj props))) a in
  App.translation_textContent (App.elements a') = translation
  /\ App.words_textContent (App.elements a')
     = ("Recognized: " ++ String.concat ", " words)%string
  /\ App.status_textContent (App.elements a') = "Active - Start signing!"%string
  /\ App.status_className (App.elements a') = "status active"%string
  /\ App.isRunning a' = App.isRunning a
  /\ App.poseDetector a' = App.poseDetector a.
Proof.
  intros Hok Ht Hw a'. subst a'.
  unfold App.onFrameBatch_resume, APIClient.translate. rewrite Hok.
  cbn [negb try_catch]. unfold App.show_result. cbn [get]. rewrite Ht, Hw.
  cbn. rewrite join_strings. repeat split.
Qed.

(** X10.  A 2xx answer whose body is an object without an array under
    [words] is half shown: the translation text is replaced by what the
    body has under [translation] (nothing gives the empty text), then the
    failure status is set; the words text stays as it was. *)
Theorem answer_without_words_is_half_shown
    (Number_toString : number -> string) (a : App.t) (status : nat)
    (props : list (string * json)) :
  APIClient.ok status = true ->
  (forall items, lookup "words" props <> Some (JArr items)) ->
  let a' := App.onFrameBatch_resume Number_toString
              (APIClient.Response status (Normal (JObj props))) a in
  App.translation_textContent (App.elements a')
  = textContent_of Number_toString (lookup "translation" props)
  /\ App.words_textContent (App.elements a') = App.words_textContent (App.elements a)
  /\ App.status_textContent (App.elements a') = retry_text
  /\ App.isRunning a' = App.isRunning a.
Proof.
  intros Hok Hw a'. subst a'.
  unfold App.onFrameBatch_resume, APIClient.translate. rewrite Hok.
  cbn [negb try_catch]. unfold App.show_result. cbn [get].
  destruct (lookup "words" props) as [[| b | n | s | items | ps] |] eqn:E;
    try (contradiction (Hw items eq_refl));
    cbn; repeat split; reflexivity.
Qed.

(** X11.  Stopping twice is the same as stopping once. *)
Theorem stop_is_idempotent (a : App.t) : App.stop (App.stop a) = App.stop a.
Proof.
  destruct a as [[d |] running el]; destruct el as [st cl tr wo sb pb [m |] cw ch];
    reflexivity.
Qed.

(* ================================================================= *)
(** ** Invariants of the app in its environment *)

(** X12.  While the app is not running nothing is sent, whatever the
    detectors go on delivering, the held one and the replaced ones: from a
    state with [isRunning] false, no sequence of events without the
    completion of a [start()] posts a request or sets [isRunning]. *)
Theorem nothing_is_sent_while_stopped
    (Number_toString : number -> string) (cfg : Config)
    (evs : list World.event) (w w' : World.t) :
  App.isRunning (World.app w) = false ->
  forallb (fun ev => negb (is_metadata_event ev)) evs = true ->
  World.run Number_toString cfg evs w = Some w' ->
  World.posted w' = World.posted w
  /\ App.isRunning (World.app w') = false.
Proof.
  revert w. induction evs as [| ev evs IH]; intros w Hstopped Hall Hrun.
  - cbn in Hrun. injection Hrun as <-. split; [reflexivity | exact Hstopped].
  - cbn [World.run] in Hrun. cbn [forallb] in Hall.
    apply andb_true_iff in Hall. destruct Hall as [Hev Hall].
    destruct (World.step Number_toString cfg ev w) as [w1 |] eqn:Hs; [| discriminate Hrun].
    assert (H1 : World.posted w1 = World.posted w /\ App.isRunning (World.app w1) = false).
    { split.
      - rewrite (proj1 (step_submits _ _ _ _ _ Hs)). unfold first_submissions.
        rewrite Hstopped. apply app_nil_r.
      - destruct ev as [o | | r | vw vh init | | dev | k dev | i o]; cbn [World.step] in Hs;
          try discriminate Hev.
        + injection Hs as <-.
          cbn [World.with_app World.app]. rewrite (proj1 (checkAPIHealth_keeps _ _)).
          exact Hstopped.
        + injection Hs as <-. exact Hstopped.
        + injection Hs as <-. unfold World.retire.
          destruct r as [stream | e]; [destruct (App.poseDetector (World.app w)) |];
            exact Hstopped.
        + injection Hs as <-.
          cbn [World.with_app World.app]. unfold App.stop.
          destruct (App.poseDetector (App.set_isRunning false (World.app w))); reflexivity.
        + destruct (App.poseDetector (World.app w)) as [d |]; [| discriminate Hs].
          destruct (PoseDetector.isInitialized d); [| discriminate Hs].
          destruct (PoseDetector.handle cfg dev d) as [d' effects].
          injection Hs as <-.
          match goal with
          | |- context [World.deliver cfg ?bs ?t ?w0] =>
              destruct (deliver_spec cfg bs t w0) as [_ [_ [Hr _]]]
          end.
          rewrite Hr. exact Hstopped.
        + destruct (nth_error (World.replaced w) k) as [d |]; [| discriminate Hs].
          destruct (PoseDetector.isInitialized d); [| discriminate Hs].
          destruct (PoseDetector.handle cfg dev d) as [d' effects].
          injection Hs as <-.
          match goal with
          | |- context [World.deliver cfg ?bs ?t ?w0] =>
              destruct (deliver_spec cfg bs t w0) as [_ [_ [Hr _]]]
          end.
          rewrite Hr. exact Hstopped.
        + destruct (nth_error (World.in_flight w) i); [| discriminate Hs].
          injection Hs as <-.
          cbn [World.app]. rewrite (proj1 (onFrameBatch_resume_keeps _ _ _)).
          exact Hstopped. }
    destruct H1 as [Hp1 Hr1].
    destruct (IH w1 Hr1 Hall Hrun) as [Hp Hr]. rewrite Hp, Hp1. split; [reflexivity | exact Hr].
Qed.

Lemma translate_request_full cfg frames now :
  List.length frames = FRAME_BATCH_SIZE cfg -> numbered frames ->
  full_request cfg (APIClient.translate_request cfg frames now).
Proof. intros Hl Hn. repeat split; assumption. Qed.

(** One notification keeps the buffer of a detector short and numbered,
    and the batches it releases are full and numbered. *)
Lemma handle_keeps_in_order cfg ev d d' effects :
  (0 < FRAME_BATCH_SIZE cfg)%nat ->
  PoseDetector.handle cfg ev d = (d', effects) ->
  in_order cfg d ->
  in_order cfg d'
  /\ Forall (fun b => List.length b = FRAME_BATCH_SIZE cfg /\ numbered b)
            (PoseDetector.callbacks effects).
Proof.
  intros HB Hh [Hlen Hnum]. unfold in_order.
  destruct (handle_shape _ _ _ _ _ Hh) as [_ [[-> Hsame] | [r [Hid [_ Hcase]]]]].
  - rewrite Hsame. split; [split; assumption | constructor].
  - cbn zeta in Hcase. pose proof (numbered_snoc _ _ Hnum Hid) as Hnum1.
    destruct Hcase as [[-> [Hb Hshort]] | [-> [Hb Hfull]]]; rewrite Hb.
    + split; [split; assumption | constructor].
    + split; [split; [exact HB | exact numbered_nil] |].
      destruct (PoseDetector.onFrameCallback d); cbn [PoseDetector.callbacks];
        [| constructor].
      constructor; [| constructor]. split; [| exact Hnum1].
      rewrite length_app in *. cbn [List.length] in *. lia.
Qed.

Lemma Forall_update_nth {A} (P : A -> Prop) (a : A) (l : list A) : forall i,
  P a -> Forall P l -> Forall P (World.update_nth i a l).
Proof.
  intros i Ha H. revert i. induction H as [| b l Hb Hl IH]; intros [| i];
    cbn [World.update_nth]; constructor; auto.
Qed.

Lemma Forall_nth_error {A} (P : A -> Prop) (l : list A) i a :
  Forall P l -> nth_error l i = Some a -> P a.
Proof.
  intros H Hn. rewrite Forall_forall in H. apply H. eapply nth_error_In. exact Hn.
Qed.

(** The requests for full, numbered batches are full requests. *)
Lemma first_submissions_full cfg now (batches : list PoseDetector.Batch) :
  Forall (fun b => List.length b = FRAME_BATCH_SIZE cfg /\ numbered b) batches ->
  Forall (full_request cfg)
         (map (fun frames => APIClient.translate_request cfg frames now) batches).
Proof.
  induction 1 as [| b bs [Hl Hn] _ IH]; cbn [map]; constructor;
    [apply translate_request_full; assumption | exact IH].
Qed.

(** One turn keeps the buffer of every detector, held or replaced, short
    and numbered, and posts full batches only. *)
Lemma step_keeps_batches_full Number_toString cfg ev w w' :
  (0 < FRAME_BATCH_SIZE cfg)%nat ->
  World.step Number_toString cfg ev w = Some w' ->
  buffer_in_order cfg (World.app w) ->
  Forall (in_order cfg) (World.replaced w) ->
  Forall (full_request cfg) (World.posted w) ->
  buffer_in_order cfg (World.app w')
  /\ Forall (in_order cfg) (World.replaced w')
  /\ Forall (full_request cfg) (World.posted w').
Proof.
  intros HB Hs Hbuf Hrep Hposted. unfold buffer_in_order in *.
  destruct ev as [o | | r | vw vh init | | dev | k dev | i o]; cbn [World.step] in Hs.
  - injection Hs as <-. cbn [World.with_app World.app World.posted World.replaced].
    rewrite (proj2 (checkAPIHealth_keeps _ _)). repeat split; assumption.
  - injection Hs as <-. repeat split; assumption.
  - injection Hs as <-. unfold World.retire.
    destruct r as [stream | e].
    + destruct (App.poseDetector (World.app w)) as [d |];
        cbn [World.with_app World.set_replaced World.app World.posted World.replaced
             App.start_camera App.with_elements App.set_poseDetector App.poseDetector].
      * split; [split; [exact HB | exact numbered_nil] |]. split; [| exact Hposted].
        apply Forall_app. split; [exact Hrep | constructor; [exact Hbuf | constructor]].
      * split; [split; [exact HB | exact numbered_nil] |]. split; assumption.
    + cbn [World.with_app World.app World.posted World.replaced].
      repeat split; assumption.
  - injection Hs as <-. cbn [World.with_app World.app World.posted World.replaced].
    split; [| split; assumption].
    destruct (World.app w) as [[d |] running el]; cbn in Hbuf |- *; [| exact I].
    destruct init as [u | e]; exact Hbuf.
  - injection Hs as <-. cbn [World.with_app World.app World.posted World.replaced].
    split; [| split; assumption].
    destruct (World.app w) as [[d |] running el]; cbn in Hbuf |- *; [exact Hbuf | exact I].
  - destruct (App.poseDetector (World.app w)) as [d |] eqn:Hd; [| discriminate Hs].
    destruct (PoseDetector.isInitialized d); [| discriminate Hs].
    destruct (PoseDetector.handle cfg dev d) as [d' effects] eqn:Hh.
    injection Hs as <-.
    destruct (handle_keeps_in_order _ _ _ _ _ HB Hh Hbuf) as [Hd' Hfull].
    match goal with
    | |- context [World.deliver cfg ?bs ?t ?w0] =>
        destruct (deliver_spec cfg bs t w0) as [_ [Hp [_ [Hdet Hrp]]]]
    end.
    cbn [World.with_app World.app World.posted World.replaced App.set_poseDetector
         App.poseDetector App.isRunning] in Hp, Hdet, Hrp.
    rewrite Hp, Hdet, Hrp. split; [exact Hd' |]. split; [exact Hrep |].
    apply Forall_app. split; [exact Hposted |].
    destruct (App.isRunning (World.app w)); [| constructor].
    apply first_submissions_full. exact Hfull.
  - destruct (nth_error (World.replaced w) k) as [d |] eqn:Hd; [| discriminate Hs].
    destruct (PoseDetector.isInitialized d); [| discriminate Hs].
    destruct (PoseDetector.handle cfg dev d) as [d' effects] eqn:Hh.
    injection Hs as <-.
    destruct (handle_keeps_in_order _ _ _ _ _ HB Hh (Forall_nth_error _ _ _ _ Hrep Hd))
      as [Hd' Hfull].
    match goal with
    | |- context [World.deliver cfg ?bs ?t ?w0] =>
        destruct (deliver_spec cfg bs t w0) as [_ [Hp [_ [Hdet Hrp]]]]
    end.
    cbn [World.set_replaced World.app World.posted World.replaced] in Hp, Hdet, Hrp.
    rewrite Hp, Hdet, Hrp. split; [exact Hbuf |].
    split; [apply Forall_update_nth; assumption |].
    apply Forall_app. split; [exact Hposted |].
    destruct (App.isRunning (World.app w)); [| constructor].
    apply first_submissions_full. exact Hfull.
  - destruct (nth_error (World.in_flight w) i); [| discriminate Hs].
    injection Hs as <-. cbn [World.app World.posted World.replaced].
    rewrite (proj2 (onFrameBatch_resume_keeps _ _ _)). repeat split; assumption.
Qed.

(** X13.  Every request the app ever posts, in any run from its
    construction, goes to [API_URL + "/translate"] with method POST and
    carries exactly [FRAME_BATCH_SIZE] records whose [frame_id]s count
    from 0: starts, stops and restarts, and the detectors that a restart
    leaves behind, never let a short or misnumbered batch out. *)
Theorem every_posted_request_is_a_full_batch
    (Number_toString : number -> string) (cfg : Config)
    (page0 : App.Elements) (evs : list World.event) (w : World.t) :
  (0 < FRAME_BATCH_SIZE cfg)%nat ->
  World.run Number_toString cfg evs (World.init page0) = Some w ->
  Forall (full_request cfg) (World.posted w).
Proof.
  intros HB.
  assert (Hgen : forall evs w0 w1,
            World.run Number_toString cfg evs w0 = Some w1 ->
            buffer_in_order cfg (World.app w0) ->
            Forall (in_order cfg) (World.replaced w0) ->
            Forall (full_request cfg) (World.posted w0) ->
            Forall (full_request cfg) (World.posted w1)).
  { clear evs w. induction evs as [| ev evs IH]; intros w0 w1 Hrun Hb Hr Hp.
    - injection Hrun as <-. exact Hp.
    - cbn [World.run] in Hrun.
      destruct (World.step Number_toString cfg ev w0) as [w' |] eqn:Hs; [| discriminate Hrun].
      destruct (step_keeps_batches_full _ _ _ _ _ HB Hs Hb Hr Hp) as [Hb' [Hr' Hp']].
      exact (IH _ _ Hrun Hb' Hr' Hp'). }
  intros Hrun. apply (Hgen evs _ _ Hrun); [exact I | constructor | constructor].
Qed.

Lemma nth_error_update_nth {A} (a : A) (l : list A) : forall i b,
  nth_error l i = Some b -> nth_error (World.update_nth i a l) i = Some a.
Proof.
  induction l as [| c l IH]; intros [| i] b H; cbn in H |- *;
    try discriminate H; [reflexivity | eapply IH; exact H].
Qed.

(** X19.  A detector that a restart has replaced still feeds the app.
    While the app is running, a well-formed pose notification of a
    replaced, initialised detector whose buffer is one record short of a
    batch posts a request: it carries the records that detector had
    buffered, followed by the record of the notification.  The detector
    the app holds takes no part in it; the buffer of the replaced one
    starts again from nothing. *)
Theorem replaced_detector_still_posts
    (Number_toString : number -> string) (cfg : Config) (w : World.t)
    (i : nat) (d : PoseDetector.t) (results : PoseDetector.PoseResults) (now : Z) :
  nth_error (World.replaced w) i = Some d ->
  PoseDetector.isInitialized d = true ->
  PoseDetector.onFrameCallback d = true ->
  App.isRunning (World.app w) = true ->
  S (List.length (PoseDetector.frameBuffer d)) = FRAME_BATCH_SIZE cfg ->
  hands_labelled (PoseDetector.currentHandsData d) = true ->
  face_complete (PoseDetector.currentFaceData d) = true ->
  let record :=
    record_of {| arrival_pose := results; arrival_time := now;
                 arrival_hands := PoseDetector.currentHandsData d;
                 arrival_face := PoseDetector.currentFaceData d |}
      (List.length (PoseDetector.frameBuffer d)) in
  let request :=
    APIClient.translate_request cfg (PoseDetector.frameBuffer d ++ [record]) now in
  exists w',
    World.step Number_toString cfg
      (World.Replaced i (PoseDetector.PoseResultsEv results now)) w = Some w'
    /\ World.posted w' = World.posted w ++ [request]
    /\ World.in_flight w' = World.in_flight w ++ [request]
    /\ App.poseDetector (World.app w') = App.poseDetector (World.app w)
    /\ option_map PoseDetector.frameBuffer (nth_error (World.replaced w') i) = Some [].
Proof.
  intros Hd Hinit Hcb Hrun Hlen Hh Hf record request.
  cbn [World.step]. rewrite Hd, Hinit.
  cbn [PoseDetector.handle]. unfold PoseDetector.onPoseResults.
  set (d1 := PoseDetector.set_currentPoseData results d).
  change (PoseDetector.currentHandsData d1) with (PoseDetector.currentHandsData d).
  rewrite (proj2 (drawHands_normal_iff _) Hh).
  unfold PoseDetector.extractSkeletalData.
  rewrite (compose_record now d1 results eq_refl Hh Hf). cbn [bind].
  change (PoseDetector.frameBuffer d1) with (PoseDetector.frameBuffer d).
  change (PoseDetector.currentHandsData d1) with (PoseDetector.currentHandsData d).
  change (PoseDetector.currentFaceData d1) with (PoseDetector.currentFaceData d).
  change (PoseDetector.onFrameCallback d1) with (PoseDetector.onFrameCallback d).
  fold record. rewrite Hcb.
  replace (FRAME_BATCH_SIZE cfg <=? List.length (PoseDetector.frameBuffer d ++ [record]))%nat
    with true
    by (symmetry; apply Nat.leb_le; rewrite length_app; cbn [List.length]; lia).
  cbn [PoseDetector.callbacks World.clock].
  eexists. split; [reflexivity |].
  cbn [World.deliver]. unfold App.onFrameBatch.
  cbn [World.set_replaced World.app]. rewrite Hrun. cbn [negb].
  cbn [World.send World.posted World.in_flight World.app World.replaced
       App.updateStatus App.with_elements App.poseDetector].
  fold request. repeat split.
  cbn [World.set_replaced World.replaced].
  rewrite (nth_error_update_nth _ _ _ _ Hd). reflexivity.
Qed.

(* ================================================================= *)
(** ** The overlay and the record *)

Lemma forEach_hand_colours hands : forall index labels left right l r,
  PoseDetector.forEach_hand hands index labels left right = Normal (l, r) ->
  snd (Overlay.forEach_hand hands index labels) = Normal tt
  /\ is_some l
     = draws_in "#FF0000" (fst (Overlay.forEach_hand hands index labels)) || is_some left
  /\ is_some r
     = draws_in "#0000FF" (fst (Overlay.forEach_hand hands index labels)) || is_some right.
Proof.
  induction hands as [| landmarks rest IH]; intros index labels left right l r H.
  - cbn in H. injection H as <- <-. repeat split.
  - cbn [PoseDetector.forEach_hand Overlay.forEach_hand] in H |- *.
    destruct (PoseDetector.handedness_label labels index) as [label | e];
      cbn [bind] in H; [| discriminate H].
    unfold Overlay.hand_color.
    destruct (Overlay.forEach_hand rest (S index) labels) as [calls c] eqn:Hrest.
    destruct (String.eqb label "Left"%string); apply IH in H; rewrite Hrest in H;
      cbn [fst snd] in H |- *; destruct H as [Hc [Hl Hr]];
      (split; [exact Hc |]); rewrite Hl, Hr; cbn; split;
      rewrite ?orb_true_r; reflexivity.
Qed.

(** X15.  The overlay and the record agree on the hands: whenever a record
    can be composed, [drawHands] also completes, it draws in red
    ([#FF0000]) exactly when the record has a [left_hand], and in blue
    ([#0000FF]) exactly when it has a [right_hand]. *)
Theorem hand_colours_match_the_record
    (now : Z) (d : PoseDetector.t) (r : PoseDetector.SkeletalData) :
  PoseDetector.compose now d = Normal r ->
  let drawn := Overlay.drawHands (PoseDetector.currentHandsData d) in
  snd drawn = Normal tt
  /\ draws_in "#FF0000" (fst drawn) = is_some (PoseDetector.left_hand r)
  /\ draws_in "#0000FF" (fst drawn) = is_some (PoseDetector.right_hand r).
Proof.
  unfold PoseDetector.compose, Overlay.drawHands. intros H.
  match type of H with
  | bind ?hands _ = _ => destruct hands as [[l rt] | e] eqn:Hhands
  end; cbn [bind] in H; [| discriminate H].
  match type of H with
  | bind ?face _ = _ => destruct face as [f | e]
  end; cbn [bind] in H; [| discriminate H].
  injection H as <-. cbn [PoseDetector.left_hand PoseDetector.right_hand fst snd].
  destruct (PoseDetector.currentHandsData d) as [results |].
  2: { injection Hhands as <- <-. repeat split. }
  destruct (PoseDetector.multiHandLandmarks results) as [hs |].
  2: { injection Hhands as <- <-. repeat split. }
  apply forEach_hand_colours in Hhands. destruct Hhands as [Hc [Hl Hr]].
  cbn [is_some] in Hl, Hr. rewrite orb_false_r in Hl, Hr.
  cbn zeta. split; [exact Hc |]. split; [symmetry; exact Hl | symmetry; exact Hr].
Qed.

Lemma drawFace_points_selected face : forall idxs lms,
  Forall2 (fun idx lm => nth_error face idx = Some lm) idxs lms ->
  flat_map
    (fun idx =>
       match nth_error face idx with
       | Some lm => [Overlay.drawLandmarks [lm] "#FFFF00" 2]
       | None => []
       end)
    idxs
  = map (fun lm => Overlay.drawLandmarks [lm] "#FFFF00" 2) lms.
Proof.
  induction 1 as [| idx lm idxs lms Hlm _ IH]; [reflexivity |].
  cbn [flat_map map]. rewrite Hlm, IH. reflexivity.
Qed.

(** X16.  The overlay and the record agree on the face: whenever a record
    is composed with a face, the yellow points [drawFace] draws for the
    first face are the six landmarks whose quantized coordinates the record
    stores in [face_landmarks], in the same order; the further faces are
    drawn too but not recorded. *)
Theorem face_points_match_the_record
    (now : Z) (d : PoseDetector.t) (r : PoseDetector.SkeletalData)
    (results : PoseDetector.FaceResults)
    (face : list Landmark.t) (others : list (list Landmark.t)) :
  PoseDetector.compose now d = Normal r ->
  PoseDetector.currentFaceData d = Some results ->
  PoseDetector.multiFaceLandmarks results = Some (face :: others) ->
  exists lms,
    PoseDetector.face_landmarks r = Some (map PoseDetector.quantize lms)
    /\ Overlay.drawFace (Some results)
       = map (fun lm => Overlay.drawLandmarks [lm] "#FFFF00" 2) lms
         ++ flat_map Overlay.drawFace_points others.
Proof.
  unfold PoseDetector.compose. intros H Hcur Hfaces. rewrite Hcur, Hfaces in H.
  match type of H with
  | bind ?hands _ = _ => destruct hands as [h | e]
  end; cbn [bind] in H; [| discriminate H].
  cbn [nth_error] in H.
  destruct (mapM (PoseDetector.face_point face) PoseDetector.keyIndices)
    as [pts | e] eqn:Hm; cbn [bind] in H; [| discriminate H].
  injection H as <-. cbn [PoseDetector.face_landmarks].
  destruct (mapM_face_point_selects _ _ _ Hm) as [lms [Hsel ->]].
  exists lms. split; [reflexivity |].
  unfold Overlay.drawFace. rewrite Hfaces. cbn [flat_map]. f_equal.
  unfold Overlay.drawFace_points, Overlay.keyPoints.
  exact (drawFace_points_selected face _ _ Hsel).
Qed.

Lemma overlay_drawHands_completes handsData :
  hands_labelled handsData = true ->
  snd (Overlay.drawHands handsData) = Normal tt.
Proof.
  intros H. apply hands_part_normal_iff in H. destruct H as [[l r] H].
  unfold Overlay.drawHands.
  destruct handsData as [results |]; [| reflexivity].
  destruct (PoseDetector.multiHandLandmarks results) as [hs |]; [| reflexivity].
  apply forEach_hand_colours in H. exact (proj1 H).
Qed.

(** X17.  A first face with fewer than 455 landmarks is drawn but not
    recorded: when the hands are labelled, the drawing of a pose
    notification completes, with the key points that exist, whatever the
    face; but if the first face lacks a key index the notification then
    throws in extraction and no record is pushed. *)
Theorem short_face_is_drawn_but_not_recorded
    (cfg : Config) (width height : nat)
    (results : PoseDetector.PoseResults) (now : Z) (d : PoseDetector.t) :
  hands_labelled (PoseDetector.currentHandsData d) = true ->
  face_complete (PoseDetector.currentFaceData d) = false ->
  let d1 := PoseDetector.set_currentPoseData results d in
  let '(d', effects, c) := PoseDetector.onPoseResults cfg results now d in
  snd (Overlay.render width height results d1) = Normal tt
  /\ incl (Overlay.drawFace (PoseDetector.currentFaceData d))
          (fst (Overlay.render width height results d1))
  /\ (exists e, c = Throw e)
  /\ PoseDetector.pushes effects = [].
Proof.
  intros Hh Hf d1.
  assert (He : exists e, PoseDetector.onPoseResults cfg results now d = (d1, [], Throw e)).
  { unfold PoseDetector.onPoseResults. fold d1.
    change (PoseDetector.currentHandsData d1) with (PoseDetector.currentHandsData d).
    rewrite (proj2 (drawHands_normal_iff _) Hh).
    unfold PoseDetector.extractSkeletalData.
    destruct (PoseDetector.compose now d1) as [r | e] eqn:Hc; cbn [bind].
    - assert (Hex : exists r, PoseDetector.compose now d1 = Normal r)
        by (exists r; exact Hc).
      apply compose_normal_iff in Hex. destruct Hex as [_ Hex].
      change (PoseDetector.currentFaceData d1) with (PoseDetector.currentFaceData d) in Hex.
      rewrite Hex in Hf. discriminate Hf.
    - exists e. reflexivity. }
  destruct He as [e ->].
  unfold Overlay.render.
  change (PoseDetector.currentHandsData d1) with (PoseDetector.currentHandsData d).
  change (PoseDetector.currentFaceData d1) with (PoseDetector.currentFaceData d).
  pose proof (overlay_drawHands_completes _ Hh) as Hc.
  destruct (Overlay.drawHands (PoseDetector.currentHandsData d)) as [calls c'].
  cbn [snd] in Hc. subst c'. cbn [fst snd].
  split; [reflexivity |]. split; [| split; [exists e; reflexivity | reflexivity]].
  intros call Hin. right. apply in_or_app. right. apply in_or_app. right. exact Hin.
Qed.

(* ================================================================= *)
(** ** The two versions of [start()] *)

(** X18.  The [start()] of the root [app.js] and the [start()] of
    [js/app.js] leave the app in the same state when they succeed
    (running, with an initialised detector that has the callback, active
    status, Stop button shown), except for the video element: only
    [js/app.js] attaches the camera stream and sizes the canvas.  When
    [initialize()] throws, both show "Error: " and the message and leave
    the app as running as it was. *)
Theorem root_start_agrees_with_js_start
    (a : App.t) (stream : App.MediaStream) (videoWidth videoHeight : nat) :
  let root := RootApp.start (Normal tt) a in
  let js := App.start_metadata videoWidth videoHeight (Normal tt)
              (App.start_camera (Normal stream) (App.start a)) in
  App.isRunning root = true
  /\ App.isRunning js = true
  /\ App.poseDetector root = App.poseDetector js
  /\ App.set_canvas (App.canvas_width (App.elements root))
       (App.canvas_height (App.elements root))
       (App.set_srcObject (App.video_srcObject (App.elements root)) (App.elements js))
     = App.elements root
  /\ App.video_srcObject (App.elements root) = App.video_srcObject (App.elements a)
  /\ App.video_srcObject (App.elements js) = Some stream
  /\ forall error,
       let root' := RootApp.start (Throw error) a in
       let js' := App.start_metadata videoWidth videoHeight (Throw error)
                    (App.start_camera (Normal stream) (App.start a)) in
       App.status_textContent (App.elements root')
       = ("Error: " ++ message error)%string
       /\ App.status_textContent (App.elements js')
          = App.status_textContent (App.elements root')
       /\ App.isRunning root' = App.isRunning a
       /\ App.isRunning js' = App.isRunning a.
Proof.
  destruct a as [detector running el]. destruct el as [st cl tr wo sb pb src cw ch].
  cbn. repeat split.
Qed.

(* ================================================================= *)
(** ** Instances *)

Lemma face_landmarks_are_the_key_points_witness :
  exists r lms,
    PoseDetector.compose 7 detector_with_all = Normal r
    /\ List.length lms = 6%nat
    /\ PoseDetector.face_landmarks r = Some (map PoseDetector.quantize lms).
Proof.
  eexists.
  destruct (face_landmarks_are_the_key_points 7 detector_with_all
              _ one_face [repeat minus_sixteenth 455]
              ltac:(vm_compute; reflexivity) eq_refl eq_refl)
    as [lms [_ [Hlen Hface]]].
  exists lms. split; [reflexivity |]. split; assumption.
Defined.

Lemma hands_are_filed_by_label_witness :
  exists r,
    PoseDetector.compose 7 detector_with_all = Normal r
    /\ PoseDetector.left_hand r
       = Some (map PoseDetector.quantize [minus_sixteenth])
    /\ PoseDetector.right_hand r
       = Some (map PoseDetector.quantize [minus_sixteenth; minus_sixteenth]).
Proof.
  eexists. split; [vm_compute; reflexivity |].
  exact (hands_are_filed_by_label 7 detector_with_all _ two_hands
           [[minus_sixteenth]; [minus_sixteenth; minus_sixteenth]]
           ltac:(vm_compute; reflexivity) eq_refl eq_refl).
Defined.

Lemma buffer_length_is_count_mod_batch_size_witness :
  let cfg := config_of_size 2 in
  let d := detector_with_pose minus_sixteenth in
  let evs := [pose_frame 1; pose_frame 2; pose_frame 3; pose_frame 4; pose_frame 5] in
  List.length (PoseDetector.frameBuffer (fst (PoseDetector.run cfg evs d))) = 1%nat.
Proof.
  intros cfg d evs.
  assert (H : (List.length (PoseDetector.frameBuffer d) < FRAME_BATCH_SIZE cfg)%nat)
    by (cbn; lia).
  exact (buffer_length_is_count_mod_batch_size cfg evs d _ _ H (surjective_pairing _)).
Defined.

Lemma no_callback_no_batches_witness :
  let cfg := config_of_size 2 in
  let evs := [pose_frame 1; pose_frame 2; pose_frame 3; pose_frame 4; pose_frame 5] in
  PoseDetector.callbacks (snd (PoseDetector.run cfg evs PoseDetector.new)) = []
  /\ PoseDetector.onFrameCallback (fst (PoseDetector.run cfg evs PoseDetector.new)) = false.
Proof.
  intros cfg evs.
  exact (no_callback_no_batches cfg evs PoseDetector.new _ _ eq_refl (surjective_pairing _)).
Defined.


Lemma answer_is_shown_whether_running_or_not_witness :
  let a := World.app (stopped_world number_text) in
  let a' := App.onFrameBatch_resume number_text
              (APIClient.Response 200 (Normal hello_body)) a in
  App.isRunning a = false
  /\ App.translation_textContent (App.elements a') = "hello"%string
  /\ App.words_textContent (App.elements a') = "Recognized: hello"%string
  /\ App.status_textContent (App.elements a') = "Active - Start signing!"%string.
Proof.
  intros a a'. split; [reflexivity |].
  destruct (answer_is_shown_whether_running_or_not number_text a 200
              [("translation"%string, JStr "hello"); ("words"%string, JArr [JStr "hello"])]
              "hello"%string ["hello"%string] eq_refl eq_refl eq_refl)
    as [Ht [Hw [Hs _]]].
  repeat split; assumption.
Defined.

Lemma answer_without_words_is_half_shown_witness :
  let a := App.new page in
  let a' := App.onFrameBatch_resume number_text
              (APIClient.Response 200
                 (Normal (JObj [("translation"%string, JStr "hi")]))) a in
  App.translation_textContent (App.elements a') = "hi"%string
  /\ App.words_textContent (App.elements a') = ""%string
  /\ App.status_textContent (App.elements a') = retry_text.
Proof.
  intros a a'.
  destruct (answer_without_words_is_half_shown number_text a 200
              [("translation"%string, JStr "hi")] eq_refl)
    as [Ht [Hw [Hs _]]].
  - intros items H. discriminate H.
  - repeat split; assumption.
Defined.

Lemma nothing_is_sent_while_stopped_witness :
  let evs := replaced_frames 0 10 20 ++ pose_frames 30 in
  exists w',
    World.run number_text CONFIG evs (stopped_again_world number_text) = Some w'
    /\ World.posted w' = []
    /\ App.isRunning (World.app w') = false.
Proof.
  intros evs. eexists. split; [vm_compute; reflexivity |].
  apply (nothing_is_sent_while_stopped number_text CONFIG evs
           (stopped_again_world number_text)); [reflexivity | reflexivity |].
  vm_compute. reflexivity.
Defined.

Lemma every_posted_request_is_a_full_batch_witness :
  let evs := start_events ++ pose_frames 10 ++ [World.StopClick]
             ++ start_events ++ replaced_frames 0 10 20 ++ pose_frames 30 in
  exists w,
    World.run number_text CONFIG evs (World.init page) = Some w
    /\ List.length (World.posted w) = 2%nat
    /\ Forall (full_request CONFIG) (World.posted w).
Proof.
  intros evs. eexists. split; [vm_compute; reflexivity |].
  split; [reflexivity |].
  apply (every_posted_request_is_a_full_batch number_text CONFIG page evs); [cbn; lia |].
  vm_compute. reflexivity.
Defined.

Lemma hand_colours_match_the_record_witness :
  exists r,
    PoseDetector.compose 7 detector_with_all = Normal r
    /\ draws_in "#FF0000" (fst (Overlay.drawHands (Some two_hands)))
       = is_some (PoseDetector.left_hand r)
    /\ draws_in "#0000FF" (fst (Overlay.drawHands (Some two_hands)))
       = is_some (PoseDetector.right_hand r).
Proof.
  eexists. split; [vm_compute; reflexivity |].
  exact (proj2 (hand_colours_match_the_record 7 detector_with_all _
                  ltac:(vm_compute; reflexivity))).
Defined.

Lemma face_points_match_the_record_witness :
  exists r lms,
    PoseDetector.compose 7 detector_with_all = Normal r
    /\ PoseDetector.face_landmarks r = Some (map PoseDetector.quantize lms)
    /\ Overlay.drawFace (Some one_face)
       = map (fun lm => Overlay.drawLandmarks [lm] "#FFFF00" 2) lms ++ [].
Proof.
  eexists.
  destruct (face_points_match_the_record 7 detector_with_all _ one_face
              (repeat minus_sixteenth 455) []
              ltac:(vm_compute; reflexivity) eq_refl eq_refl)
    as [lms [Hface Hdraw]].
  exists lms. split; [reflexivity |]. split; assumption.
Defined.

Lemma short_face_is_drawn_but_not_recorded_witness :
  let d := PoseDetector.onFaceResults short_face (detector_with_pose minus_sixteenth) in
  let results := {| PoseDetector.poseLandmarks := Some [minus_sixteenth] |} in
  let '(d', effects, c) := PoseDetector.onPoseResults CONFIG results 7 d in
  snd (Overlay.render 640 480 results (PoseDetector.set_currentPoseData results d))
  = Normal tt
  /\ incl (Overlay.drawFace (Some short_face))
          (fst (Overlay.render 640 480 results
                  (PoseDetector.set_currentPoseData results d)))
  /\ (exists e, c = Throw e)
  /\ PoseDetector.pushes effects = [].
Proof.
  intros d results.
  exact (short_face_is_drawn_but_not_recorded CONFIG 640 480 results 7 d eq_refl eq_refl).
Defined.

Lemma replaced_detector_still_posts_witness :
  let w := restarted_world number_text in
  exists w',
    World.step number_text CONFIG (World.Replaced 0 (pose_frame 30)) w = Some w'
    /\ World.posted w' = [APIClient.translate_request CONFIG (batch_from 0 30) 30].
Proof.
  intros w.
  destruct (replaced_detector_still_posts number_text CONFIG w 0
              (PoseDetector.set_frameBuffer (batch_from 0 29)
                 (PoseDetector.set_isInitialized true
                    (detector_with_pose minus_sixteenth)))
              {| PoseDetector.poseLandmarks := Some [minus_sixteenth] |} 30
              ltac:(vm_compute; reflexivity) eq_refl eq_refl eq_refl eq_refl
              eq_refl eq_refl)
    as [w' [Hstep [Hposted _]]].
  exists w'. split; [exact Hstep |].
  rewrite Hposted. vm_compute. reflexivity.
Defined.
